(** * feed-monitoring: the feed-state cache and its refresh workers

    A shallow embedding of [feeds-checker.go] (the revision whose [FeedInfo]
    carries [FailureSince]) and the properties of its specification.

    - Go strings and byte slices are [string] (a list of bytes).
    - [map[string]T] is [gmap string T]; a map is a reference in Go, so the
      functions that mutate one take the map and give the new map back.
    - [time.Time] is a [Z]: nanoseconds since the zero instant, so that
      [IsZero] is a test against [0]; [time.Duration] is an [int64].
    - The network, the clock, the log and the random order in which [range]
      walks a map live in a [World] that every effectful function threads.
    - A run-time panic is a result of its own ([Panic]). *)

From Stdlib Require Import ZArith String Ascii List Lia.
From stdpp Require Import gmap strings list fin_maps pretty.

Local Open Scope string_scope.
Local Open Scope Z_scope.

(** ** Results and the state monad of effectful code *)

Inductive Res (A : Type) : Type :=
| Ok (a : A)
| Panic (msg : string).
Arguments Ok {A} a.
Arguments Panic {A} msg.

Definition M (S A : Type) : Type := S -> Res A * S.

Definition ret {S A} (a : A) : M S A := fun s => (Ok a, s).

Definition bind {S A B} (m : M S A) (k : A -> M S B) : M S B :=
  fun s =>
    match m s with
    | (Ok a, s') => k a s'
    | (Panic msg, s') => (Panic msg, s')
    end.

Definition panic {S A} (msg : string) : M S A := fun s => (Panic msg, s).

Notation "x <- m ;; k" := (bind m (fun x => k))
  (at level 100, m at next level, right associativity).
Notation "m ;;; k" := (bind m (fun _ => k))
  (at level 100, right associativity).

(** ** Strings *)

Definition LF : string := String "010"%char EmptyString.

Definition isEmpty (s : string) : bool :=
  match s with EmptyString => true | String _ _ => false end.

(** ** The regular expression [size:(\d+) bytes] *)

Module Regexp.

(** [\d] is an ASCII digit. *)
Definition isDigit (c : ascii) : bool :=
  let n := nat_of_ascii c in (Nat.leb 48 n && Nat.leb n 57)%bool.

(** The longest run of digits at the head of [s], and what follows it. *)
Fixpoint digitsPrefix (s : string) : string * string :=
  match s with
  | EmptyString => (EmptyString, EmptyString)
  | String c s' =>
      if isDigit c
      then let '(d, r) := digitsPrefix s' in (String c d, r)
      else (EmptyString, s)
  end.

Fixpoint stripPrefix (p s : string) : option string :=
  match p, s with
  | EmptyString, _ => Some s
  | String a p', String b s' =>
      if Ascii.eqb a b then stripPrefix p' s' else None
  | String _ _, EmptyString => None
  end.

(** A match that starts at the first byte of [s]: the whole match and the
    group. The byte after the digits has to be a space, so the greedy run
    is the only candidate. *)
Definition matchHere (s : string) : option (string * string) :=
  match stripPrefix "size:" s with
  | None => None
  | Some r =>
      let '(d, r') := digitsPrefix r in
      if isEmpty d then None
      else match stripPrefix " bytes" r' with
           | None => None
           | Some _ => Some ("size:" +:+ d +:+ " bytes", d)
           end
  end.

(** [re.FindSubmatch]: the leftmost match as [whole; group 1], and the nil
    slice when there is none. *)
Fixpoint FindSubmatch (s : string) : list string :=
  match matchHere s with
  | Some (whole, d) => [whole; d]
  | None =>
      match s with
      | EmptyString => []
      | String _ s' => FindSubmatch s'
      end
  end.

Fixpoint allDigits (s : string) : bool :=
  match s with
  | EmptyString => true
  | String c s' => (isDigit c && allDigits s')%bool
  end.

(** What the pattern denotes: [s] holds [size:], one digit or more, and
    [ bytes]. *)
Definition Matches (s : string) : Prop :=
  exists pre d post,
    s = pre +:+ "size:" +:+ d +:+ " bytes" +:+ post
    /\ d <> EmptyString /\ allDigits d = true.

End Regexp.

(** ** The world outside the process *)

(** The tokens of [encoding/xml]; only the local name of a start tag is
    looked at. *)
Inductive Token : Type :=
| StartElement (Local : string)
| EndElement (Local : string)
| CharData
| Comment
| ProcInst
| Directive.

(** A response body, by what each reader of the program gets out of it:
    [ioutil.ReadAll] gets [bytes] and [readErr]; [gzip.NewReader] fails with
    [gzipErr] when the stream does not start with a gzip header;
    [xml.Decoder.Token] over the unpacked stream gives the [tokens] one by
    one and from then on a nil token with the error [tokenErr], which is
    [EOF] at a clean end of the document and anything else when unpacking or
    tokenizing fails on the way. *)
Record Body : Type := {
  bytes : string;
  readErr : option string;
  gzipErr : option string;
  tokens : list Token;
  tokenErr : string
}.

Record Response : Type := {
  StatusCode : Z;
  Status : string;
  ResBody : Body
}.

Inductive Event : Type :=
| EvGet (url : string)
| EvLog (line : string).

(** [net] answers a request from what has happened so far; [rng] is the
    source of the order of a [range] over a map. *)
Record World : Type := {
  net : list Event -> string -> string + Response;
  rng : nat -> nat;
  draws : nat;
  clock : Z;
  trace : list Event
}.

Definition emit (e : Event) (w : World) : World :=
  {| net := net w; rng := rng w; draws := draws w; clock := clock w;
     trace := trace w ++ [e] |}.

Definition http_Get (url : string) : M World (string + Response) :=
  fun w => (Ok (net w (trace w) url), emit (EvGet url) w).

Definition log_Print (line : string) : M World unit :=
  fun w => (Ok tt, emit (EvLog line) w).

Definition time_Now : M World Z := fun w => (Ok (clock w), w).

Definition ioutil_ReadAll (b : Body) : string * option string :=
  (bytes b, readErr b).

(** [s[i]] on a slice, with the bounds check of the runtime. *)
Definition index {S A} (l : list A) (i : nat) : M S A :=
  match l !! i with
  | Some a => ret a
  | None => panic "index out of range"
  end.

(** ** [getFeedSize] *)

Definition getFeedSize (url : string) : M World (string * string) :=
  let statUrl := url +:+ "?stat" in
  r <- http_Get statUrl ;;
  match r with
  | inl err =>
      log_Print ("Error fetching stat from " +:+ statUrl +:+ ": " +:+ err +:+ LF) ;;;
      ret (EmptyString, EmptyString)
  | inr res =>
      if 300 <=? StatusCode res then
        log_Print ("Got '" +:+ Status res +:+ "' from " +:+ statUrl +:+ LF) ;;;
        ret (EmptyString, EmptyString)
      else
        let '(stat, err) := ioutil_ReadAll (ResBody res) in
        match err with
        | Some e =>
            log_Print ("Error fetching stat from " +:+ statUrl +:+ ": " +:+ e +:+ LF) ;;;
            ret (EmptyString, stat)
        | None =>
            size <- index (Regexp.FindSubmatch stat) 1 ;;
            ret (size, stat)
        end
  end.

Definition feedIsAlive (url : string) : M World bool :=
  r <- getFeedSize url ;;
  let '(size, _) := r in
  ret (negb (isEmpty size)).

(** ** The feed-state cache *)

Record FeedInfo : Type := {
  Stat : string;
  Size : string;
  VacanciesCount : Z;
  FailureSince : Z
}.

Definition FeedsLimit : nat := 32.

(** [int64] arithmetic wraps around. *)
Definition wrap64 (z : Z) : Z := (z + 2 ^ 63) mod 2 ^ 64 - 2 ^ 63.

(** ** [time] *)

Module time.
Definition Hour : Z := 3600 * 1000000000.
Definition maxDuration : Z := 2 ^ 63 - 1.
Definition minDuration : Z := - 2 ^ 63.
Definition IsZero (t : Z) : bool := t =? 0.
(** [t.Sub(u)]: the difference as a [Duration], held at the largest or the
    smallest one when it does not fit. *)
Definition Sub (t u : Z) : Z := Z.max minDuration (Z.min maxDuration (t - u)).
Definition Since (t : Z) : M World Z := fun w => (Ok (Sub (clock w) t), w).
End time.

(** ** [countVacancies] *)

(** [gzip.NewReader] reads the header of the stream and fails on a bad
    one. *)
Definition gzip_NewReader (b : Body) : string + Body :=
  match gzipErr b with
  | Some err => inl err
  | None => inr b
  end.

(** A decoder is what its calls of [Token()] return, one after the other:
    each token with a nil error, then the nil token with the error that ends
    the stream. *)
Definition Decoder : Type := list (option Token * option string).

Definition xml_NewDecoder (stream : Body) : Decoder :=
  (map (fun t => (Some t, None)) (tokens stream) ++ [(None, Some (tokenErr stream))])%list.

(** The loop [for { t, _ := decoder.Token(); if t == nil { break }; ... }]:
    the error of each call goes to [_], and a nil token ends the loop. *)
Fixpoint countLoop (decoder : Decoder) (count : Z) : Z :=
  match decoder with
  | [] => count
  | (t, _) :: rest =>
      match t with
      | None => count
      | Some (StartElement name) =>
          countLoop rest (if String.eqb name "vacancy" then wrap64 (count + 1) else count)
      | Some _ => countLoop rest count
      end
  end.

Definition countVacancies (url : string) : M World (Z * option string) :=
  r <- http_Get url ;;
  match r with
  | inl err =>
      ret (0, Some ("Error fetching archive from " +:+ url +:+ ": " +:+ err))
  | inr res =>
      match gzip_NewReader (ResBody res) with
      | inl err =>
          ret (0, Some ("Error uncompressing response from " +:+ url +:+ ": " +:+ err))
      | inr uncompressedStream =>
          let decoder := xml_NewDecoder uncompressedStream in
          ret (countLoop decoder 0, None)
      end
  end.

(** ** [updateInfoIfNeed] *)

(** The state of [updateInfoIfNeed]: the map it is given, which it shares
    with its caller, and the world. *)
Definition Store : Type := gmap string FeedInfo * World.

Definition inWorld {A} (m : M World A) : M Store A :=
  fun s => let '(r, w') := m (snd s) in (r, (fst s, w')).

Definition readFeeds : M Store (gmap string FeedInfo) := fun s => (Ok (fst s), s).

Definition writeFeed (url : string) (fi : FeedInfo) : M Store unit :=
  fun s => (Ok tt, (<[url := fi]> (fst s), snd s)).

Definition zeroFeedInfo : FeedInfo :=
  {| Stat := EmptyString; Size := EmptyString; VacanciesCount := 0; FailureSince := 0 |}.

Definition updateInfoIfNeed (url : string) : M Store (option string) :=
  r <- inWorld (getFeedSize url) ;;
  let '(size, stat) := r in
  if isEmpty size then
    ret (Some ("Error getting feed " +:+ url +:+ " size - skip info update" +:+ LF))
  else
    feeds <- readFeeds ;;
    if match feeds !! url with
       | None => true
       | Some fi => negb (String.eqb (Size fi) size)
       end
    then
      inWorld (log_Print ("counting vacancies for " +:+ url)) ;;;
      r <- inWorld (countVacancies url) ;;
      let '(vc, err) := r in
      match err with
      | Some e => ret (Some ("Error counting vacancies: " +:+ e))
      | None =>
          writeFeed url {| Stat := stat; Size := size; VacanciesCount := vc;
                           FailureSince := 0 |} ;;;
          feeds <- readFeeds ;;
          inWorld (log_Print (pretty (VacanciesCount (default zeroFeedInfo (feeds !! url))))) ;;;
          ret None
      end
    else ret None.

(** ** The response of a lookup *)

Record ResponseWriter : Type := {
  status : option Z;
  body : string
}.

Definition newResponse : ResponseWriter := {| status := None; body := EmptyString |}.

(** The first [WriteHeader] decides the status. *)
Definition WriteHeader (code : Z) (w : ResponseWriter) : ResponseWriter :=
  match status w with
  | Some _ => w
  | None => {| status := Some code; body := body w |}
  end.

(** A [Write] before any [WriteHeader] sends status 200 first. *)
Definition Write (s : string) (w : ResponseWriter) : ResponseWriter :=
  let w' := WriteHeader 200 w in
  {| status := status w'; body := body w' +:+ s |}.

Definition StatusAccepted : Z := 202.
Definition StatusBadRequest : Z := 400.
Definition StatusPaymentRequired : Z := 402.
Definition StatusNotFound : Z := 404.
Definition StatusExpectationFailed : Z := 417.

(** ** The process: the two global maps and the running workers *)

Record Sys : Type := {
  info : gmap string FeedInfo;
  updaters : gmap string Z;
  goroutines : list string;
  world : World;
  crashed : bool
}.

Definition inEnv {A} (m : M World A) : M Sys A :=
  fun s =>
    let '(r, w') := m (world s) in
    (r, {| info := info s; updaters := updaters s; goroutines := goroutines s;
           world := w'; crashed := crashed s |}).

(** A call with the global [info] as its [feeds] argument: both names are
    the same map. *)
Definition withInfo {A} (m : M Store A) : M Sys A :=
  fun s =>
    let '(r, (feeds', w')) := m (info s, world s) in
    (r, {| info := feeds'; updaters := updaters s; goroutines := goroutines s;
           world := w'; crashed := crashed s |}).

Definition readInfo : M Sys (gmap string FeedInfo) := fun s => (Ok (info s), s).
Definition readUpdaters : M Sys (gmap string Z) := fun s => (Ok (updaters s), s).

Definition setUpdater (url : string) (t : Z) : M Sys unit :=
  fun s =>
    (Ok tt, {| info := info s; updaters := <[url := t]> (updaters s);
               goroutines := goroutines s; world := world s; crashed := crashed s |}).

Definition deleteUpdater (url : string) : M Sys unit :=
  fun s =>
    (Ok tt, {| info := info s; updaters := delete url (updaters s);
               goroutines := goroutines s; world := world s; crashed := crashed s |}).

Definition deleteInfo (url : string) : M Sys unit :=
  fun s =>
    (Ok tt, {| info := delete url (info s); updaters := updaters s;
               goroutines := goroutines s; world := world s; crashed := crashed s |}).

(** [go func(...)]: one more worker, for [url]. *)
Definition spawn (url : string) : M Sys unit :=
  fun s =>
    (Ok tt, {| info := info s; updaters := updaters s;
               goroutines := url :: goroutines s; world := world s;
               crashed := crashed s |}).

(** ** The order of [range] over a map *)

(** Go walks a map in an order of its own choice. Every order of the keys
    comes from some [seed]: each key is put at place [seed mod n] among the
    [n - 1] keys placed before it. *)
Fixpoint rangeOrder (seed : nat) (keys : list string) : list string :=
  match keys with
  | [] => []
  | k :: ks =>
      let n := S (length ks) in
      let placed := rangeOrder (seed / n)%nat ks in
      take (seed mod n)%nat placed ++ k :: drop (seed mod n)%nat placed
  end.

Definition rangeKeys {V} (m : gmap string V) : M World (list string) :=
  fun w =>
    (Ok (rangeOrder (rng w (draws w)) (map fst (map_to_list m))),
     {| net := net w; rng := rng w; draws := S (draws w); clock := clock w;
        trace := trace w |}).

(** ** [feedInfoHandler] *)

(** The end of the handler, from [updaters[url] = time.Now()] on, which a
    tracked feed and a feed just admitted share. *)
Definition serveCached (url : string) (w : ResponseWriter) : M Sys ResponseWriter :=
  now <- inEnv time_Now ;;
  setUpdater url now ;;;
  feeds <- readInfo ;;
  match feeds !! url with
  | None => ret (WriteHeader StatusAccepted w)
  | Some feed =>
      w <- (if negb (time.IsZero (FailureSince feed)) then
              d <- inEnv (time.Since (FailureSince feed)) ;;
              if 6 * time.Hour <? d then
                inEnv (log_Print ("info about " +:+ url +:+
                         " could not be updated for more than 6 hours - return error")) ;;;
                ret (Write "information could not be obtained for more than 6 hours"
                       (WriteHeader StatusExpectationFailed w))
              else ret w
            else ret w) ;;
      ret (Write (Stat feed +:+ ", vacanciesCount: " +:+ pretty (VacanciesCount feed)) w)
  end.

Definition writeLines (urls : list string) (w : ResponseWriter) : ResponseWriter :=
  fold_left (fun w url => Write (url +:+ LF) w) urls w.

Definition feedInfoHandler (values : gmap string (list string)) (w : ResponseWriter)
  : M Sys ResponseWriter :=
  match values !! "url" with
  | None => ret (WriteHeader StatusBadRequest w)
  | Some urls =>
      url <- index urls 0 ;;
      if Nat.eqb (String.length url) 0 then
        inEnv (log_Print ("Error getting feed " +:+ url +:+ " size - refuse serving" +:+ LF)) ;;;
        ret (WriteHeader StatusBadRequest w)
      else
        tracked <- readUpdaters ;;
        match tracked !! url with
        | Some _ => serveCached url w
        | None =>
            alive <- inEnv (feedIsAlive url) ;;
            if negb alive then
              inEnv (log_Print (url +:+ " isn't alive - return 404")) ;;;
              ret (WriteHeader StatusNotFound w)
            else if Nat.leb FeedsLimit (size tracked) then
              order <- inEnv (rangeKeys tracked) ;;
              ret (writeLines order
                     (Write ("Feeds limit (" +:+ pretty FeedsLimit +:+ ") is exhausted:" +:+ LF)
                        (WriteHeader StatusPaymentRequired w)))
            else
              spawn url ;;;
              serveCached url w
        end
  end.

(** ** The worker *)

Inductive LoopCtl : Type := Continue | Return.

Definition setFailureSince (t : Z) (fi : FeedInfo) : FeedInfo :=
  {| Stat := Stat fi; Size := Size fi; VacanciesCount := VacanciesCount fi;
     FailureSince := t |}.

(** The body of the loop of the worker, once. [Continue] goes to the post
    statement [<-c], the wait for the next tick; [Return] ends the
    goroutine. On the failure path [feed] is a copy of the value in the
    map: the assignment to its field changes the copy, which is dropped at
    [continue]. *)
Definition workerBody (url : string) : M Sys LoopCtl :=
  err <- withInfo (updateInfoIfNeed url) ;;
  match err with
  | Some e =>
      inEnv (log_Print e) ;;;
      feeds <- readInfo ;;
      _feed <- match feeds !! url with
               | Some feed =>
                   if time.IsZero (FailureSince feed) then
                     now <- inEnv time_Now ;;
                     ret (setFailureSince now feed)
                   else ret feed
               | None => ret zeroFeedInfo
               end ;;
      ret Continue
  | None =>
      tracked <- readUpdaters ;;
      d <- inEnv (time.Since (default 0 (tracked !! url))) ;;
      if 6 * time.Hour <? d then
        inEnv (log_Print ("info about " +:+ url +:+
                 " is not requested for 6 hours - cancel monitoring")) ;;;
        deleteUpdater url ;;;
        deleteInfo url ;;;
        ret Return
      else ret Continue
  end.

(** ** The process as a transition system *)

(** A handler run and a pass through the body of a worker's loop are the
    steps, taken one at a time. A worker may take its step at any moment,
    which covers the first pass (taken without a tick) and every pass after
    a tick. A panic in a handler is recovered by [net/http], and the
    process goes on; a panic in a worker ends the process. *)
Inductive Action : Type :=
| Lookup (values : gmap string (list string))
| Tick (url : string)
| Elapse (d : N).

Fixpoint removeOne (url : string) (l : list string) : list string :=
  match l with
  | [] => []
  | x :: l' => if String.eqb x url then l' else x :: removeOne url l'
  end.

Definition retire (url : string) (s : Sys) : Sys :=
  {| info := info s; updaters := updaters s;
     goroutines := removeOne url (goroutines s); world := world s;
     crashed := crashed s |}.

Definition crash (s : Sys) : Sys :=
  {| info := info s; updaters := updaters s; goroutines := goroutines s;
     world := world s; crashed := true |}.

Definition advance (d : N) (s : Sys) : Sys :=
  {| info := info s; updaters := updaters s; goroutines := goroutines s;
     world := {| net := net (world s); rng := rng (world s);
                 draws := draws (world s); clock := clock (world s) + Z.of_N d;
                 trace := trace (world s) |};
     crashed := crashed s |}.

Definition exec (a : Action) (s : Sys) : Sys :=
  if crashed s then s
  else
    match a with
    | Lookup values => snd (feedInfoHandler values newResponse s)
    | Tick url =>
        if bool_decide (url ∈ goroutines s) then
          match workerBody url s with
          | (Ok Continue, s') => s'
          | (Ok Return, s') => retire url s'
          | (Panic _, s') => crash s'
          end
        else s
    | Elapse d => advance d s
    end.

Definition run (acts : list Action) (s : Sys) : Sys := fold_left (fun s a => exec a s) acts s.

(** The process starts with both maps empty and no worker. *)
Definition init (w : World) : Sys :=
  {| info := ∅; updaters := ∅; goroutines := []; world := w; crashed := false |}.

Definition reachable (s : Sys) : Prop := exists w acts, s = run acts (init w).

(** ** States and texts that the properties speak of *)

(** The start tags that [countVacancies] counts. *)
Definition isVacancy (t : Token) : bool :=
  match t with
  | StartElement name => String.eqb name "vacancy"
  | _ => false
  end.

(** [s] after [updaters[url] = time.Now()]. *)
Definition stamped (url : string) (s : Sys) : Sys :=
  {| info := info s; updaters := <[url := clock (world s)]> (updaters s);
     goroutines := goroutines s; world := world s; crashed := crashed s |}.

(** [s] after a line went to the log. *)
Definition logged (line : string) (s : Sys) : Sys :=
  {| info := info s; updaters := updaters s; goroutines := goroutines s;
     world := emit (EvLog line) (world s); crashed := crashed s |}.

(** [s] in the world [w]. *)
Definition withWorld (w : World) (s : Sys) : Sys :=
  {| info := info s; updaters := updaters s; goroutines := goroutines s;
     world := w; crashed := crashed s |}.

(** [s] with one more worker, for [url]. *)
Definition spawned (url : string) (s : Sys) : Sys :=
  {| info := info s; updaters := updaters s; goroutines := url :: goroutines s;
     world := world s; crashed := crashed s |}.

(** [w] after a [range] took its order from it. *)
Definition drawn (w : World) : World :=
  {| net := net w; rng := rng w; draws := S (draws w); clock := clock w;
     trace := trace w |}.

(** [s] after a refresh left the map [feeds] and the world [w]. *)
Definition refreshed (feeds : gmap string FeedInfo) (w : World) (s : Sys) : Sys :=
  {| info := feeds; updaters := updaters s; goroutines := goroutines s;
     world := w; crashed := crashed s |}.

(** [s] after [delete(updaters, url)] and [delete(info, url)]. *)
Definition evicted (url : string) (s : Sys) : Sys :=
  {| info := delete url (info s); updaters := delete url (updaters s);
     goroutines := goroutines s; world := world s; crashed := crashed s |}.

(** The body of the answer for a cached value. *)
Definition payload (feed : FeedInfo) : string :=
  Stat feed +:+ ", vacanciesCount: " +:+ pretty (VacanciesCount feed).

Definition staleMessage : string :=
  "information could not be obtained for more than 6 hours".

Definition idleMessage (url : string) : string :=
  "info about " +:+ url +:+ " is not requested for 6 hours - cancel monitoring".

(** The lines of the capacity listing, one URL each. *)
Fixpoint linesOf (urls : list string) : string :=
  match urls with
  | [] => EmptyString
  | url :: rest => url +:+ LF +:+ linesOf rest
  end.


(** The invariant of the process: the registry within its limit, and no
    stored value with a [FailureSince]. *)
Definition Inv (s : Sys) : Prop :=
  (size (updaters s) <= FeedsLimit)%nat
  /\ map_Forall (fun _ feed => FailureSince feed = 0) (info s).

(** ** The first revision of the file *)

(** [feeds-checker.go] comes in two revisions. The first one (its lines 1 to
    156) has no [FailureSince]; its [getFeedSize] and [countVacancies] are
    those of the second, letter for letter, and are not defined again. *)
Module Rev1.

Record FeedInfo : Type := {
  Stat : string;
  Size : string;
  VacanciesCount : Z
}.

Definition zeroFeedInfo : FeedInfo :=
  {| Stat := EmptyString; Size := EmptyString; VacanciesCount := 0 |}.

Definition Store : Type := gmap string FeedInfo * World.

Definition inWorld {A} (m : M World A) : M Store A :=
  fun s => let '(r, w') := m (snd s) in (r, (fst s, w')).

Definition readFeeds : M Store (gmap string FeedInfo) := fun s => (Ok (fst s), s).

Definition writeFeed (url : string) (fi : FeedInfo) : M Store unit :=
  fun s => (Ok tt, (<[url := fi]> (fst s), snd s)).

(** [fmt.Printf] and [fmt.Println] write to standard output; the trace keeps
    their texts among the lines of the log. *)
Definition fmt_Print (text : string) : M World unit :=
  fun w => (Ok tt, emit (EvLog text) w).

Definition updateInfoIfNeed (url : string) : M Store unit :=
  r <- inWorld (getFeedSize url) ;;
  let '(size, stat) := r in
  if isEmpty size then
    inWorld (log_Print ("Error getting feed " +:+ url +:+ " size - skip info update" +:+ LF))
  else
    feeds <- readFeeds ;;
    if match feeds !! url with
       | None => true
       | Some fi => negb (String.eqb (Size fi) size)
       end
    then
      inWorld (fmt_Print "counting vacancies...") ;;;
      r <- inWorld (countVacancies url) ;;
      let '(vc, err) := r in
      match err with
      | Some e => inWorld (log_Print ("Error counting vacancies: " +:+ e +:+ LF))
      | None =>
          writeFeed url {| Stat := stat; Size := size; VacanciesCount := vc |} ;;;
          feeds <- readFeeds ;;
          inWorld (fmt_Print
                     (pretty (VacanciesCount (default zeroFeedInfo (feeds !! url))) +:+ LF))
      end
    else inWorld (fmt_Print ".").

Record Sys : Type := {
  info : gmap string FeedInfo;
  updaters : gmap string Z;
  goroutines : list string;
  world : World
}.

Definition inEnv {A} (m : M World A) : M Sys A :=
  fun s =>
    let '(r, w') := m (world s) in
    (r, {| info := info s; updaters := updaters s; goroutines := goroutines s;
           world := w' |}).

Definition readInfo : M Sys (gmap string FeedInfo) := fun s => (Ok (info s), s).
Definition readUpdaters : M Sys (gmap string Z) := fun s => (Ok (updaters s), s).

Definition setUpdater (url : string) (t : Z) : M Sys unit :=
  fun s =>
    (Ok tt, {| info := info s; updaters := <[url := t]> (updaters s);
               goroutines := goroutines s; world := world s |}).

Definition spawn (url : string) : M Sys unit :=
  fun s =>
    (Ok tt, {| info := info s; updaters := updaters s;
               goroutines := url :: goroutines s; world := world s |}).

(** The end of the handler, from [updaters[url] = time.Now()] on. *)
Definition serveCached (url : string) (w : ResponseWriter) : M Sys ResponseWriter :=
  now <- inEnv time_Now ;;
  setUpdater url now ;;;
  feeds <- readInfo ;;
  match feeds !! url with
  | None => ret (WriteHeader StatusAccepted w)
  | Some feed =>
      ret (Write (Stat feed +:+ ", vacanciesCount: " +:+ pretty (VacanciesCount feed)) w)
  end.

Definition feedInfoHandler (values : gmap string (list string)) (w : ResponseWriter)
  : M Sys ResponseWriter :=
  match values !! "url" with
  | None => ret (WriteHeader StatusBadRequest w)
  | Some urls =>
      url <- index urls 0 ;;
      if Nat.eqb (String.length url) 0 then
        inEnv (log_Print ("Error getting feed " +:+ url +:+ " size - refuse serving" +:+ LF)) ;;;
        ret (WriteHeader StatusBadRequest w)
      else
        r <- inEnv (getFeedSize url) ;;
        let '(size, _) := r in
        if isEmpty size then ret (WriteHeader StatusNotFound w)
        else
          tracked <- readUpdaters ;;
          match tracked !! url with
          | Some _ => serveCached url w
          | None =>
              if Nat.leb FeedsLimit (stdpp.base.size tracked) then
                order <- inEnv (rangeKeys tracked) ;;
                ret (writeLines order
                       (Write ("Feeds limit (" +:+ pretty FeedsLimit +:+ ") is exhausted:" +:+ LF)
                          (WriteHeader StatusPaymentRequired w)))
              else
                spawn url ;;;
                serveCached url w
          end
  end.

End Rev1.

(** A value of the first revision as a value of the second. *)
Definition upgrade (fi : Rev1.FeedInfo) : FeedInfo :=
  {| Stat := Rev1.Stat fi; Size := Rev1.Size fi;
     VacanciesCount := Rev1.VacanciesCount fi; FailureSince := 0 |}.

(** ** Further notions, for the properties of the code around the claims *)

(** A request on the network, as against a line of the log. *)
Definition isRequest (e : Event) : bool :=
  match e with
  | EvGet _ => true
  | EvLog _ => false
  end.

(** What [w] has in its trace beyond the trace of [w0]. *)
Definition since (w0 w : World) : list Event := drop (length (trace w0)) (trace w).

(** The URLs asked for since [w0]. *)
Definition requestsSince (w0 w : World) : list string :=
  omap (fun e => match e with EvGet url => Some url | EvLog _ => None end) (since w0 w).

(** The world apart from its trace. *)
Definition sameSurroundings (w0 w : World) : Prop :=
  net w = net w0 /\ rng w = rng w0 /\ draws w = draws w0 /\ clock w = clock w0.

(** [w] comes after [w0]: the same surroundings, and a trace that goes on
    from the trace of [w0]. *)
Definition extends (w0 w : World) : Prop :=
  sameSurroundings w0 w /\ trace w = (trace w0 ++ since w0 w)%list.

(** The test of [updateInfoIfNeed] for a stored marker equal to [size]:
    the negation of [!ok || fi.Size != size]. *)
Definition sameMarker (feeds : gmap string FeedInfo) (url size : string) : bool :=
  match feeds !! url with
  | Some fi => String.eqb (Size fi) size
  | None => false
  end.

(** The URLs asked for in a trace. *)
Definition requestsOf (tr : list Event) : list string :=
  omap (fun e => match e with EvGet url => Some url | EvLog _ => None end) tr.

(** The network of [w] does not read the log of the process: what it answers
    depends on the requests made so far and on nothing else of the trace. *)
Definition blindToLog (w : World) : Prop :=
  forall tr tr' url, requestsOf tr = requestsOf tr' -> net w tr url = net w tr' url.

(** Whether a refresh of [url] in [w] goes on from the probe to the counter:
    the probe came back with a marker, and the marker is not the stored
    one. *)
Definition recounts (url : string) (feeds : gmap string FeedInfo) (w : World) : bool :=
  match fst (getFeedSize url w) with
  | Ok (size, _) => negb (isEmpty size) && negb (sameMarker feeds url size)
  | Panic _ => false
  end.

(** The line that the refresh logs before it counts. *)
Definition countingLine (url : string) : Event :=
  EvLog ("counting vacancies for " +:+ url).


(** A process of the first revision in the world [w]. *)
Definition rev1In (w : World) (s : Rev1.Sys) : Rev1.Sys :=
  {| Rev1.info := Rev1.info s; Rev1.updaters := Rev1.updaters s;
     Rev1.goroutines := Rev1.goroutines s; Rev1.world := w |}.

(** A process of the first revision with one more worker, for [url]. *)
Definition rev1Spawned (url : string) (s : Rev1.Sys) : Rev1.Sys :=
  {| Rev1.info := Rev1.info s; Rev1.updaters := Rev1.updaters s;
     Rev1.goroutines := url :: Rev1.goroutines s; Rev1.world := Rev1.world s |}.

(** A process of the first revision after [updaters[url] = time.Now()]. *)
Definition rev1Stamped (url : string) (s : Rev1.Sys) : Rev1.Sys :=
  {| Rev1.info := Rev1.info s;
     Rev1.updaters := <[url := clock (Rev1.world s)]> (Rev1.updaters s);
     Rev1.goroutines := Rev1.goroutines s; Rev1.world := Rev1.world s |}.

(** A process of the first revision as a process of the second: the same
    registry, workers and world, and every cached value with a zero
    [FailureSince]. *)
Definition upgradeSys (s : Rev1.Sys) : Sys :=
  {| info := upgrade <$> Rev1.info s; updaters := Rev1.updaters s;
     goroutines := Rev1.goroutines s; world := Rev1.world s; crashed := false |}.

(** ** Concrete worlds, for running the definitions *)

Module Scenario.

(** A body that is plain text, as a stat sidecar sends it. *)
Definition textBody (s : string) : Body :=
  {| bytes := s; readErr := None; gzipErr := Some "gzip: invalid header";
     tokens := []; tokenErr := "EOF" |}.

(** A gzip archive that unpacks and tokenizes to [toks] and then stops
    with [err]. *)
Definition archiveBody (toks : list Token) (err : string) : Body :=
  {| bytes := "(gzip data)"; readErr := None; gzipErr := None;
     tokens := toks; tokenErr := err |}.

Definition reply (code : Z) (line : string) (b : Body) : string + Response :=
  inr {| StatusCode := code; Status := line; ResBody := b |}.

(** A network that answers each URL of [table] the same way every time and
    refuses every other one. *)
Fixpoint serve (table : list (string * (string + Response))) (url : string)
  : string + Response :=
  match table with
  | [] => inl "dial tcp: connection refused"
  | (u, r) :: rest => if String.eqb u url then r else serve rest url
  end.

Definition startOfDay : Z := 63000000000000000000.

Definition worldOf (table : list (string * (string + Response))) : World :=
  {| net := fun _ url => serve table url; rng := fun _ => 0%nat; draws := 0;
     clock := startOfDay; trace := [] |}.

Definition vacancy : list Token :=
  [StartElement "vacancy"; CharData; EndElement "vacancy"].

Definition feedA : string := "http://hh.example/a.gz".

(** The feed of the end-to-end example: stat [size:100 bytes], three
    vacancies. *)
Definition healthy : World :=
  worldOf [(feedA +:+ "?stat", reply 200 "200 OK" (textBody "mtime:1 size:100 bytes"));
           (feedA, reply 200 "200 OK"
                     (archiveBody (StartElement "vacancies" :: vacancy ++ vacancy ++ vacancy
                                     ++ [EndElement "vacancies"]) "EOF"))].

(** A stat sidecar that answers 200 with a body that has no size in it. *)
Definition noPattern : World :=
  worldOf [(feedA +:+ "?stat", reply 200 "200 OK" (textBody "hello"))].

(** Nothing answers. *)
Definition offline : World := worldOf [].

(** A stat sidecar that answers 503. *)
Definition unavailable : World :=
  worldOf [(feedA +:+ "?stat", reply 503 "503 Service Unavailable" (textBody "try later"))].

(** An archive cut in the middle of its second vacancy. *)
Definition truncated : World :=
  worldOf [(feedA +:+ "?stat", reply 200 "200 OK" (textBody "size:150 bytes"));
           (feedA, reply 200 "200 OK"
                     (archiveBody (StartElement "vacancies" :: vacancy ++ [StartElement "vacancy"])
                        "XML syntax error on line 3: unexpected EOF"))].

(** An archive URL that answers with something that is not gzip. *)
Definition notGzip : World :=
  worldOf [(feedA +:+ "?stat", reply 200 "200 OK" (textBody "size:150 bytes"));
           (feedA, reply 200 "200 OK" (textBody "<html>moved</html>"))].

Definition cachedA (since : Z) : gmap string FeedInfo :=
  {[ feedA := {| Stat := "mtime:1 size:100 bytes"; Size := "100";
                 VacanciesCount := 3; FailureSince := since |} ]}.

Definition query (url : string) : gmap string (list string) := {[ "url" := [url] ]}.


Definition deadFeed : string := "http://hh.example/dead.gz".

Definition crowd : World :=
  {| net := fun _ url =>
              if String.eqb url (deadFeed +:+ "?stat")
              then inl "dial tcp: connection refused"
              else reply 200 "200 OK" (textBody "size:100 bytes");
     rng := fun _ => 0%nat; draws := 0; clock := startOfDay; trace := [] |}.


(** The process after a lookup of [feedA] and the first pass of its
    worker. *)
Definition warm : Sys := run [Lookup (query feedA); Tick feedA] (init healthy).

(** A process that tracks [feedA], with the cached value [cachedA since]. *)
Definition tracking (w : World) (since observed : Z) : Sys :=
  {| info := cachedA since; updaters := {[ feedA := observed ]};
     goroutines := [feedA]; world := w; crashed := false |}.

Definition isGet (e : Event) : bool :=
  match e with EvGet _ => true | EvLog _ => false end.

(** The feed of the end-to-end example, whose fourth request and every one
    before it see stat [size:100 bytes] and three vacancies, and every later
    one stat [size:150 bytes] and five. *)
Definition changing : World :=
  {| net := fun tr url =>
              if Nat.ltb (length (List.filter isGet tr)) 4
              then net healthy tr url
              else serve [(feedA +:+ "?stat",
                            reply 200 "200 OK" (textBody "mtime:2 size:150 bytes"));
                          (feedA, reply 200 "200 OK"
                                    (archiveBody (vacancy ++ vacancy ++ vacancy ++ vacancy
                                                    ++ vacancy) "EOF"))] url;
     rng := fun _ => 0%nat; draws := 0; clock := startOfDay; trace := [] |}.

(** The answer to a lookup of [feedA] after [acts]. *)
Definition answerAfter (acts : list Action) : Res ResponseWriter :=
  fst (feedInfoHandler (query feedA) newResponse (run acts (init changing))).

(** How often the archive of [feedA] was asked for during [acts]. *)
Definition countsAfter (acts : list Action) : nat :=
  length (List.filter (fun e => match e with
                                | EvGet url => String.eqb url feedA
                                | EvLog _ => false
                                end)
            (trace (world (run acts (init changing))))).

End Scenario.

(** ** More concrete worlds *)

Module Cases.

(** The archive of [Scenario.healthy], sent with status 404. *)
Definition archiveWith404 : World :=
  Scenario.worldOf
    [(Scenario.feedA +:+ "?stat",
      Scenario.reply 200 "200 OK" (Scenario.textBody "mtime:1 size:100 bytes"));
     (Scenario.feedA,
      Scenario.reply 404 "404 Not Found"
        (Scenario.archiveBody
           (StartElement "vacancies" :: Scenario.vacancy ++ Scenario.vacancy
              ++ Scenario.vacancy ++ [EndElement "vacancies"]) "EOF"))].

Definition feedB : string := "http://hh.example/b.gz".

(** [feedA] cached and tracked beside [feedB]. *)
Definition twoFeeds (w : World) (observedA observedB : Z) : Sys :=
  {| info := <[feedB := {| Stat := "size:7 bytes"; Size := "7"; VacanciesCount := 1;
                           FailureSince := 0 |}]> (Scenario.cachedA 0);
     updaters := {[ Scenario.feedA := observedA; feedB := observedB ]};
     goroutines := [Scenario.feedA; feedB]; world := w; crashed := false |}.

(** A worker for [feedA] in a process whose registry does not hold it. *)
Definition orphan (w : World) : Sys :=
  {| info := ∅; updaters := ∅; goroutines := [Scenario.feedA]; world := w;
     crashed := false |}.

(** A process that tracks [feedA] and has no cached value yet. *)
Definition pending (w : World) (observed : Z) : Sys :=
  {| info := ∅; updaters := {[ Scenario.feedA := observed ]};
     goroutines := [Scenario.feedA]; world := w; crashed := false |}.

(** A process of the first revision that tracks [feedA], with a cached
    value. *)
Definition rev1Tracking (w : World) (observed : Z) : Rev1.Sys :=
  {| Rev1.info := {[ Scenario.feedA := {| Rev1.Stat := "mtime:1 size:100 bytes";
                                          Rev1.Size := "100";
                                          Rev1.VacanciesCount := 3 |} ]};
     Rev1.updaters := {[ Scenario.feedA := observed ]};
     Rev1.goroutines := [Scenario.feedA]; Rev1.world := w |}.

(** A process of the first revision at its start. *)
Definition rev1Init (w : World) : Rev1.Sys :=
  {| Rev1.info := ∅; Rev1.updaters := ∅; Rev1.goroutines := []; Rev1.world := w |}.

End Cases.

(** * Properties *)

(** ** The matcher finds the pattern exactly when it is there *)

Module RegexpFacts.
Import Regexp.

Local Arguments String.append !_ _ / : simpl nomatch.

Lemma stripPrefix_Some p s r : stripPrefix p s = Some r <-> s = p +:+ r.
Proof.
  revert s; induction p as [|a p IH]; intros s; simpl.
  - split; congruence.
  - destruct s as [|b s]; [split; discriminate|].
    destruct (Ascii.eqb_spec a b) as [->|Hne].
    + rewrite IH. split; [intros ->; reflexivity | intros [= ->]; reflexivity].
    + split; [discriminate | intros [= ? ?]; congruence].
Qed.

Lemma digitsPrefix_split s d r :
  digitsPrefix s = (d, r) -> s = d +:+ r /\ allDigits d = true.
Proof.
  revert d r; induction s as [|c s IH]; intros d r; simpl.
  - intros [= <- <-]; auto.
  - destruct (isDigit c) eqn:Hc.
    + destruct (digitsPrefix s) as [d' r'] eqn:E. intros [= <- <-].
      destruct (IH _ _ eq_refl) as [-> Hd]. simpl. rewrite Hc, Hd. auto.
    + intros [= <- <-]; auto.
Qed.

Lemma digitsPrefix_app d c r :
  allDigits d = true -> isDigit c = false ->
  digitsPrefix (d +:+ String c r) = (d, String c r).
Proof.
  intros Hd Hc; induction d as [|x d IH]; simpl in *.
  - rewrite Hc; reflexivity.
  - apply andb_prop in Hd as [Hx Hd]. rewrite Hx, (IH Hd). reflexivity.
Qed.

Lemma isEmpty_true s : isEmpty s = true <-> s = EmptyString.
Proof. destruct s; simpl; split; congruence. Qed.

Lemma matchHere_Some s whole d :
  matchHere s = Some (whole, d) ->
  exists post, s = "size:" +:+ d +:+ " bytes" +:+ post
               /\ whole = "size:" +:+ d +:+ " bytes"
               /\ d <> EmptyString /\ allDigits d = true.
Proof.
  unfold matchHere.
  destruct (stripPrefix "size:" s) as [r|] eqn:E1; [|discriminate].
  destruct (digitsPrefix r) as [d' r'] eqn:E2.
  destruct (isEmpty d') eqn:E3; [discriminate|].
  destruct (stripPrefix " bytes" r') as [post|] eqn:E4; [|discriminate].
  intros [= <- <-].
  apply stripPrefix_Some in E1, E4. apply digitsPrefix_split in E2 as [E2 Hd].
  exists post. subst. repeat split; auto.
  intros ->; discriminate.
Qed.

Lemma matchHere_complete d post :
  d <> EmptyString -> allDigits d = true ->
  matchHere ("size:" +:+ d +:+ " bytes" +:+ post)
  = Some ("size:" +:+ d +:+ " bytes", d).
Proof.
  intros Hne Hd. unfold matchHere.
  assert (E1 : stripPrefix "size:" ("size:" +:+ d +:+ " bytes" +:+ post)
               = Some (d +:+ " bytes" +:+ post)) by (apply stripPrefix_Some; reflexivity).
  rewrite E1.
  change (" bytes" +:+ post) with (String " " ("bytes" +:+ post)).
  rewrite (digitsPrefix_app d " " _ Hd eq_refl).
  destruct (isEmpty d) eqn:E; [apply isEmpty_true in E; contradiction|].
  change (String " " ("bytes" +:+ post)) with (" bytes" +:+ post).
  assert (E2 : stripPrefix " bytes" (" bytes" +:+ post) = Some post)
    by (apply stripPrefix_Some; reflexivity).
  rewrite E2. reflexivity.
Qed.

(** A result of [FindSubmatch] is the nil slice, or a match with its group,
    one digit or more. *)
Lemma FindSubmatch_shape s :
  FindSubmatch s = []
  \/ exists whole d, FindSubmatch s = [whole; d]
                     /\ d <> EmptyString /\ allDigits d = true /\ Matches s.
Proof.
  induction s as [|c s IH]; simpl.
  - destruct (matchHere EmptyString) as [[whole d]|] eqn:E; [|left; reflexivity].
    vm_compute in E. discriminate.
  - destruct (matchHere (String c s)) as [[whole d]|] eqn:E.
    + right. exists whole, d. apply matchHere_Some in E as (post & Hs & Hw & Hne & Hd).
      repeat split; auto. exists EmptyString, d, post. auto.
    + destruct IH as [IH | (whole & d & IH & Hne & Hd & pre & d' & post & Hs & Hne' & Hd')];
        [left; exact IH|].
      right. exists whole, d. repeat split; auto.
      exists (String c pre), d', post. simpl. rewrite Hs. auto.
Qed.

Lemma FindSubmatch_nil s : FindSubmatch s = [] <-> ~ Matches s.
Proof.
  split.
  - induction s as [|c s IH]; simpl.
    + intros _ (pre & d & post & Hs & _). destruct pre; discriminate.
    + destruct (matchHere (String c s)) as [[whole d]|] eqn:E; [discriminate|].
      intros Hnil (pre & d & post & Hs & Hne & Hd).
      destruct pre as [|c' pre].
      * assert (Hs' : String c s = "size:" +:+ d +:+ " bytes" +:+ post) by exact Hs.
        rewrite Hs', (matchHere_complete d post Hne Hd) in E. discriminate.
      * simpl in Hs. injection Hs as _ Hs. apply (IH Hnil). exists pre, d, post. auto.
  - intros Hn. destruct (FindSubmatch_shape s) as [H | (w & d & _ & _ & _ & Hm)]; [exact H | contradiction].
Qed.
End RegexpFacts.

(** ** The stat probe *)

Section GetFeedSize.
Variables (url : string) (w : World).

Let statUrl : string := url +:+ "?stat".
Let asked : World := emit (EvGet statUrl) w.

Lemma getFeedSize_transport_error err :
  net w (trace w) statUrl = inl err ->
  getFeedSize url w
  = (Ok (EmptyString, EmptyString),
     emit (EvLog ("Error fetching stat from " +:+ statUrl +:+ ": " +:+ err +:+ LF)) asked).
Proof.
  intros H. unfold getFeedSize, bind, http_Get. fold statUrl. rewrite H. reflexivity.
Qed.

Lemma getFeedSize_bad_status res :
  net w (trace w) statUrl = inr res -> 300 <= StatusCode res ->
  getFeedSize url w
  = (Ok (EmptyString, EmptyString),
     emit (EvLog ("Got '" +:+ Status res +:+ "' from " +:+ statUrl +:+ LF)) asked).
Proof.
  intros H Hc. unfold getFeedSize, bind, http_Get. fold statUrl. rewrite H.
  destruct (Z.leb_spec 300 (StatusCode res)); [reflexivity | lia].
Qed.

Lemma getFeedSize_read_error res e :
  net w (trace w) statUrl = inr res -> StatusCode res < 300 ->
  readErr (ResBody res) = Some e ->
  getFeedSize url w
  = (Ok (EmptyString, bytes (ResBody res)),
     emit (EvLog ("Error fetching stat from " +:+ statUrl +:+ ": " +:+ e +:+ LF)) asked).
Proof.
  intros H Hc He. unfold getFeedSize, bind, http_Get, ioutil_ReadAll. fold statUrl.
  rewrite H. destruct (Z.leb_spec 300 (StatusCode res)); [lia|]. rewrite He. reflexivity.
Qed.

Lemma getFeedSize_read res :
  net w (trace w) statUrl = inr res -> StatusCode res < 300 ->
  readErr (ResBody res) = None ->
  getFeedSize url w
  = match Regexp.FindSubmatch (bytes (ResBody res)) !! 1%nat with
    | Some size => (Ok (size, bytes (ResBody res)), asked)
    | None => (Panic "index out of range", asked)
    end.
Proof.
  intros H Hc He. unfold getFeedSize, bind, http_Get, ioutil_ReadAll, index. fold statUrl.
  rewrite H. destruct (Z.leb_spec 300 (StatusCode res)); [lia|]. rewrite He.
  destruct (Regexp.FindSubmatch (bytes (ResBody res)) !! 1%nat); reflexivity.
Qed.

(** A probe that comes back with a size marker made one request, logged
    nothing, and took the marker out of the body it read. *)
Lemma getFeedSize_success size stat w1 :
  getFeedSize url w = (Ok (size, stat), w1) -> size <> EmptyString ->
  w1 = asked
  /\ exists res whole,
       net w (trace w) statUrl = inr res /\ StatusCode res < 300
       /\ readErr (ResBody res) = None /\ stat = bytes (ResBody res)
       /\ Regexp.FindSubmatch stat = [whole; size].
Proof.
  intros H Hne.
  destruct (net w (trace w) statUrl) as [err|res] eqn:Hnet.
  { rewrite (getFeedSize_transport_error _ Hnet) in H. congruence. }
  destruct (Z.leb_spec 300 (StatusCode res)) as [Hc|Hc].
  { rewrite (getFeedSize_bad_status _ Hnet Hc) in H. congruence. }
  destruct (readErr (ResBody res)) as [e|] eqn:He.
  { rewrite (getFeedSize_read_error _ _ Hnet Hc He) in H. congruence. }
  rewrite (getFeedSize_read _ Hnet Hc He) in H.
  destruct (RegexpFacts.FindSubmatch_shape (bytes (ResBody res)))
    as [E | (whole & d & E & _)]; rewrite E in H; simpl in H; [discriminate|].
  injection H as <- <- <-. split; [reflexivity|]. exists res, whole. auto.
Qed.

(** C3. On a stat body that was fetched and read without error and in
    which the pattern [size:<digits> bytes] does not occur, [getFeedSize]
    does not return the empty size marker: indexing the nil result of
    [FindSubmatch] panics. *)
Theorem getFeedSize_no_pattern_panics res :
  net w (trace w) statUrl = inr res -> StatusCode res < 300 ->
  readErr (ResBody res) = None ->
  ~ Regexp.Matches (bytes (ResBody res)) ->
  getFeedSize url w = (Panic "index out of range", asked).
Proof.
  intros Hnet Hc He Hm. rewrite (getFeedSize_read _ Hnet Hc He).
  apply RegexpFacts.FindSubmatch_nil in Hm. rewrite Hm. reflexivity.
Qed.

End GetFeedSize.

Lemma getFeedSize_no_pattern_panics_at_hello :
  getFeedSize Scenario.feedA Scenario.noPattern
  = (Panic "index out of range",
     emit (EvGet (Scenario.feedA +:+ "?stat")) Scenario.noPattern).
Proof.
  apply (getFeedSize_no_pattern_panics Scenario.feedA Scenario.noPattern
           {| StatusCode := 200; Status := "200 OK"; ResBody := Scenario.textBody "hello" |}).
  - reflexivity.
  - simpl. lia.
  - reflexivity.
  - apply RegexpFacts.FindSubmatch_nil. reflexivity.
Defined.

(** ** The archive counter *)

Lemma countVacancies_fetch_error url w err :
  net w (trace w) url = inl err ->
  countVacancies url w
  = (Ok (0, Some ("Error fetching archive from " +:+ url +:+ ": " +:+ err)),
     emit (EvGet url) w).
Proof. intros H. unfold countVacancies, bind, http_Get. rewrite H. reflexivity. Qed.

Lemma countVacancies_not_gzip url w res err :
  net w (trace w) url = inr res -> gzipErr (ResBody res) = Some err ->
  countVacancies url w
  = (Ok (0, Some ("Error uncompressing response from " +:+ url +:+ ": " +:+ err)),
     emit (EvGet url) w).
Proof.
  intros H He. unfold countVacancies, bind, http_Get, gzip_NewReader. rewrite H, He.
  reflexivity.
Qed.

Lemma countVacancies_unpacked url w res :
  net w (trace w) url = inr res -> gzipErr (ResBody res) = None ->
  countVacancies url w
  = (Ok (countLoop (xml_NewDecoder (ResBody res)) 0, None), emit (EvGet url) w).
Proof.
  intros H He. unfold countVacancies, bind, http_Get, gzip_NewReader. rewrite H, He.
  reflexivity.
Qed.

(** Every call of the counter asks for the archive, and does nothing else to
    the world. *)
Lemma countVacancies_asks url w :
  snd (countVacancies url w) = emit (EvGet url) w
  /\ exists vc err, fst (countVacancies url w) = Ok (vc, err).
Proof.
  unfold countVacancies, bind, http_Get, gzip_NewReader.
  destruct (net w (trace w) url) as [err|res]; simpl; [eauto|].
  destruct (gzipErr (ResBody res)); simpl; eauto.
Qed.

(** Short of the end of [int64], the loop adds the number of start tags
    named [vacancy] that come before the stream ends, however it ends. *)
Lemma countLoop_counts toks err count :
  0 <= count -> count + Z.of_nat (length toks) < 2 ^ 63 ->
  countLoop (map (fun t => (Some t, None)) toks ++ [(None, Some err)])%list count
  = count + Z.of_nat (length (List.filter isVacancy toks)).
Proof.
  revert count; induction toks as [|t rest IH]; intros count H0 Hlt.
  - simpl. lia.
  - rewrite length_cons in Hlt.
    assert (Hw : wrap64 (count + 1) = count + 1).
    { unfold wrap64. rewrite Z.mod_small; lia. }
    destruct t as [name| | | | |]; simpl; try (rewrite IH; lia).
    destruct (String.eqb name "vacancy"); simpl.
    + rewrite Hw, IH; lia.
    + rewrite IH; lia.
Qed.

(** C8. When the archive unpacks and its token stream then breaks off with
    an error that is not the end of the document, [countVacancies] returns
    a nil error with the count that the loop reached, which is the number of
    [vacancy] start tags read before the failure. *)
Theorem countVacancies_drops_token_error url w res :
  net w (trace w) url = inr res -> gzipErr (ResBody res) = None ->
  tokenErr (ResBody res) <> "EOF" ->
  Z.of_nat (length (tokens (ResBody res))) < 2 ^ 63 ->
  fst (countVacancies url w)
  = Ok (Z.of_nat (length (List.filter isVacancy (tokens (ResBody res)))), None).
Proof.
  intros H He _ Hlen. rewrite (countVacancies_unpacked _ _ _ H He).
  unfold xml_NewDecoder. rewrite countLoop_counts; [reflexivity | lia | lia].
Qed.

Lemma countVacancies_drops_token_error_at_truncated :
  fst (countVacancies Scenario.feedA Scenario.truncated) = Ok (2, None).
Proof.
  apply (countVacancies_drops_token_error Scenario.feedA Scenario.truncated
           {| StatusCode := 200; Status := "200 OK";
              ResBody := Scenario.archiveBody
                           (StartElement "vacancies" :: Scenario.vacancy ++ [StartElement "vacancy"])
                           "XML syntax error on line 3: unexpected EOF" |}).
  - reflexivity.
  - reflexivity.
  - discriminate.
  - vm_compute. reflexivity.
Defined.

(** ** The refresh *)

Lemma string_length_app s t :
  String.length (s +:+ t) = (String.length s + String.length t)%nat.
Proof.
  induction s as [|a s IH]; [reflexivity|].
  change (String a s +:+ t) with (String a (s +:+ t)). simpl. rewrite IH. reflexivity.
Qed.

(** The archive and its stat sidecar never share a URL. *)
Lemma archive_is_not_stat url : url <> url +:+ "?stat".
Proof.
  intros H. apply (f_equal String.length) in H. rewrite string_length_app in H.
  simpl in H. lia.
Qed.

Section UpdateInfoIfNeed.
Variables (url : string) (feeds : gmap string FeedInfo) (w : World).

Lemma updateInfoIfNeed_panics msg w1 :
  getFeedSize url w = (Panic msg, w1) ->
  updateInfoIfNeed url (feeds, w) = (Panic msg, (feeds, w1)).
Proof. intros H. unfold updateInfoIfNeed, bind, inWorld. simpl. rewrite H. reflexivity. Qed.

Lemma updateInfoIfNeed_unreachable stat w1 :
  getFeedSize url w = (Ok (EmptyString, stat), w1) ->
  updateInfoIfNeed url (feeds, w)
  = (Ok (Some ("Error getting feed " +:+ url +:+ " size - skip info update" +:+ LF)),
     (feeds, w1)).
Proof. intros H. unfold updateInfoIfNeed, bind, inWorld. simpl. rewrite H. reflexivity. Qed.

Lemma updateInfoIfNeed_unchanged size stat w1 fi :
  getFeedSize url w = (Ok (size, stat), w1) -> size <> EmptyString ->
  feeds !! url = Some fi -> Size fi = size ->
  updateInfoIfNeed url (feeds, w) = (Ok None, (feeds, w1)).
Proof.
  intros H Hne Hfi Hsz. unfold updateInfoIfNeed, bind, inWorld, readFeeds. simpl.
  rewrite H. destruct size; [contradiction|]. simpl. rewrite Hfi, Hsz, String.eqb_refl.
  reflexivity.
Qed.

(** What a refresh does once the marker differs from the stored one, or
    nothing is stored. *)
Lemma updateInfoIfNeed_changed size stat w1 :
  getFeedSize url w = (Ok (size, stat), w1) -> size <> EmptyString ->
  (forall fi, feeds !! url = Some fi -> Size fi <> size) ->
  let w2 := emit (EvLog ("counting vacancies for " +:+ url)) w1 in
  updateInfoIfNeed url (feeds, w)
  = match countVacancies url w2 with
    | (Ok (vc, None), w3) =>
        (Ok None,
         (<[url := {| Stat := stat; Size := size; VacanciesCount := vc; FailureSince := 0 |}]> feeds,
          emit (EvLog (pretty vc)) w3))
    | (Ok (_, Some e), w3) => (Ok (Some ("Error counting vacancies: " +:+ e)), (feeds, w3))
    | (Panic msg, w3) => (Panic msg, (feeds, w3))
    end.
Proof.
  intros H Hne Hfi w2. unfold updateInfoIfNeed, bind, inWorld, readFeeds. simpl.
  rewrite H. destruct size as [|c size]; [contradiction|]. simpl.
  assert (Hbr : match feeds !! url with
                | Some fi => negb (Size fi =? String c size)%string
                | None => true
                end = true).
  { destruct (feeds !! url) as [fi|] eqn:E; [|reflexivity].
    destruct (String.eqb_spec (Size fi) (String c size)) as [Heq|]; [|reflexivity].
    exfalso. exact (Hfi fi eq_refl Heq). }
  rewrite Hbr. subst w2. simpl.
  destruct (countVacancies url _) as [[[vc [e|]]|msg] w3]; simpl; try reflexivity.
  rewrite lookup_insert_eq. reflexivity.
Qed.

(** C1. When the probe succeeds with the size marker that is stored for the
    feed, [updateInfoIfNeed] returns nil, leaves the map (and so the stored
    count, stat and marker) as it was, and the request for the stat is the
    only thing that happened: the archive was not asked for, so
    [countVacancies] did not run. *)
Theorem updateInfoIfNeed_same_marker_no_count size stat w1 fi :
  getFeedSize url w = (Ok (size, stat), w1) -> size <> EmptyString ->
  feeds !! url = Some fi -> Size fi = size ->
  exists w',
    updateInfoIfNeed url (feeds, w) = (Ok None, (feeds, w'))
    /\ trace w' = (trace w ++ [EvGet (url +:+ "?stat")])%list
    /\ EvGet url ∉ drop (length (trace w)) (trace w').
Proof.
  intros H Hne Hfi Hsz. exists w1.
  split; [exact (updateInfoIfNeed_unchanged _ _ _ _ H Hne Hfi Hsz)|].
  destruct (getFeedSize_success _ _ _ _ _ H Hne) as [-> _]. simpl.
  split; [reflexivity|].
  rewrite drop_app_length. intros Hin. apply list_elem_of_singleton in Hin.
  injection Hin as Hin. exact (archive_is_not_stat _ Hin).
Qed.


(** Every way a refresh can end, with what it leaves in the map. *)
Lemma updateInfoIfNeed_outcome :
  exists r feeds' w',
    updateInfoIfNeed url (feeds, w) = (r, (feeds', w'))
    /\ (feeds' = feeds
        \/ exists size stat vc w1 w3,
             r = Ok None
             /\ getFeedSize url w = (Ok (size, stat), w1)
             /\ countVacancies url (emit (EvLog ("counting vacancies for " +:+ url)) w1)
                = (Ok (vc, None), w3)
             /\ feeds' = <[url := {| Stat := stat; Size := size; VacanciesCount := vc;
                                     FailureSince := 0 |}]> feeds)
    /\ (r <> Ok None -> feeds' = feeds)
    /\ (forall stat w1, getFeedSize url w = (Ok (EmptyString, stat), w1) -> feeds' = feeds)
    /\ (forall size stat w1 vc e w3,
          getFeedSize url w = (Ok (size, stat), w1) ->
          countVacancies url (emit (EvLog ("counting vacancies for " +:+ url)) w1)
          = (Ok (vc, Some e), w3) ->
          feeds' = feeds).
Proof.
  destruct (getFeedSize url w) as [[[size stat]|msg] w1] eqn:H.
  2:{ rewrite (updateInfoIfNeed_panics _ _ H). do 3 eexists. split; [reflexivity|].
      repeat split; auto; intros; discriminate. }
  destruct size as [|c size].
  { rewrite (updateInfoIfNeed_unreachable _ _ H). do 3 eexists. split; [reflexivity|].
    repeat split; auto. }
  set (sz := String c size) in *.
  assert (Hne : sz <> EmptyString) by discriminate.
  destruct (feeds !! url) as [fi|] eqn:Hfi.
  - destruct (String.eqb_spec (Size fi) sz) as [Heq|Hneq].
    + rewrite (updateInfoIfNeed_unchanged _ _ _ _ H Hne Hfi Heq).
      do 3 eexists. split; [reflexivity|]. repeat split; auto.
    + rewrite (updateInfoIfNeed_changed _ _ _ H Hne);
        [|intros fi' Hfi'; assert (fi' = fi) as -> by congruence; exact Hneq].
      destruct (countVacancies url _) as [[[vc [e|]]|msg] w3] eqn:Hc;
        do 3 eexists; (split; [reflexivity|]); repeat split; auto; try congruence.
      right. exists sz, stat, vc, w1, w3. auto.
  - rewrite (updateInfoIfNeed_changed _ _ _ H Hne); [|intros fi' Hfi'; congruence].
    destruct (countVacancies url _) as [[[vc [e|]]|msg] w3] eqn:Hc;
      do 3 eexists; (split; [reflexivity|]); repeat split; auto; try congruence.
    right. exists sz, stat, vc, w1, w3. auto.
Qed.

(** C4. A call of [updateInfoIfNeed] leaves the map as it was, or returns
    nil and has put at [url] the stat and the marker of its one probe and
    the count of its one run of the counter; whenever it does not return
    nil (the probe came back empty, the counter returned an error, or the
    probe panicked) the map is as it was. *)
Theorem updateInfoIfNeed_all_or_nothing :
  exists r feeds' w',
    updateInfoIfNeed url (feeds, w) = (r, (feeds', w'))
    /\ (feeds' = feeds
        \/ exists size stat vc w1 w3,
             r = Ok None
             /\ getFeedSize url w = (Ok (size, stat), w1)
             /\ countVacancies url (emit (EvLog ("counting vacancies for " +:+ url)) w1)
                = (Ok (vc, None), w3)
             /\ feeds' = <[url := {| Stat := stat; Size := size; VacanciesCount := vc;
                                     FailureSince := 0 |}]> feeds)
    /\ (r <> Ok None -> feeds' = feeds)
    /\ (forall stat w1, getFeedSize url w = (Ok (EmptyString, stat), w1) -> feeds' = feeds)
    /\ (forall size stat w1 vc e w3,
          getFeedSize url w = (Ok (size, stat), w1) ->
          countVacancies url (emit (EvLog ("counting vacancies for " +:+ url)) w1)
          = (Ok (vc, Some e), w3) ->
          feeds' = feeds).
Proof. exact updateInfoIfNeed_outcome. Qed.

End UpdateInfoIfNeed.

Lemma updateInfoIfNeed_same_marker_no_count_at_healthy :
  exists w',
    updateInfoIfNeed Scenario.feedA (Scenario.cachedA 0, Scenario.healthy)
    = (Ok None, (Scenario.cachedA 0, w'))
    /\ trace w' = (trace Scenario.healthy ++ [EvGet (Scenario.feedA +:+ "?stat")])%list
    /\ EvGet Scenario.feedA ∉ drop (length (trace Scenario.healthy)) (trace w').
Proof.
  apply (updateInfoIfNeed_same_marker_no_count Scenario.feedA (Scenario.cachedA 0)
           Scenario.healthy "100" "mtime:1 size:100 bytes"
           (emit (EvGet (Scenario.feedA +:+ "?stat")) Scenario.healthy)
           {| Stat := "mtime:1 size:100 bytes"; Size := "100"; VacanciesCount := 3;
              FailureSince := 0 |}).
  - reflexivity.
  - discriminate.
  - apply lookup_singleton_eq.
  - reflexivity.
Defined.


(** ** The lookup handler *)

Lemma six_hours_passed now t :
  (6 * time.Hour <? time.Sub now t) = true <-> 6 * time.Hour < now - t.
Proof.
  unfold time.Sub, time.maxDuration, time.minDuration, time.Hour.
  rewrite Z.ltb_lt. lia.
Qed.

Lemma six_hours_not_passed now t :
  (6 * time.Hour <? time.Sub now t) = false <-> now - t <= 6 * time.Hour.
Proof.
  unfold time.Sub, time.maxDuration, time.minDuration, time.Hour.
  rewrite Z.ltb_ge. lia.
Qed.

Lemma serveCached_pending url w s :
  info s !! url = None ->
  serveCached url w s = (Ok (WriteHeader StatusAccepted w), stamped url s).
Proof.
  intros H. unfold serveCached, bind, inEnv, time_Now, setUpdater, readInfo. simpl.
  rewrite H. reflexivity.
Qed.

Lemma serveCached_fresh url w s feed :
  info s !! url = Some feed ->
  FailureSince feed = 0 \/ clock (world s) - FailureSince feed <= 6 * time.Hour ->
  serveCached url w s = (Ok (Write (payload feed) w), stamped url s).
Proof.
  intros H Hf. unfold serveCached, bind, inEnv, time_Now, setUpdater, readInfo. simpl.
  rewrite H. unfold time.IsZero.
  destruct (Z.eqb_spec (FailureSince feed) 0) as [E|E]; simpl; [reflexivity|].
  destruct Hf as [Hf|Hf]; [contradiction|].
  apply six_hours_not_passed in Hf. rewrite Hf. reflexivity.
Qed.

Lemma serveCached_stale url w s feed :
  info s !! url = Some feed ->
  FailureSince feed <> 0 -> 6 * time.Hour < clock (world s) - FailureSince feed ->
  serveCached url w s
  = (Ok (Write (payload feed) (Write staleMessage (WriteHeader StatusExpectationFailed w))),
     logged ("info about " +:+ url +:+
             " could not be updated for more than 6 hours - return error")
       (stamped url s)).
Proof.
  intros H Hz Hf. unfold serveCached, bind, inEnv, time_Now, setUpdater, readInfo. simpl.
  rewrite H. unfold time.IsZero.
  destruct (Z.eqb_spec (FailureSince feed) 0) as [E|E]; [contradiction|]. simpl.
  apply six_hours_passed in Hf. rewrite Hf. reflexivity.
Qed.

(** Whatever it answers, the tail of the handler stamps the feed and touches
    nothing else of the two maps. *)
Lemma serveCached_frame url w s :
  exists rw s',
    serveCached url w s = (Ok rw, s')
    /\ info s' = info s
    /\ updaters s' = <[url := clock (world s)]> (updaters s)
    /\ goroutines s' = goroutines s /\ crashed s' = crashed s.
Proof.
  destruct (info s !! url) as [feed|] eqn:H.
  - destruct (Z.eq_dec (FailureSince feed) 0) as [Hz|Hz].
    { rewrite (serveCached_fresh _ _ _ _ H (or_introl Hz)). do 2 eexists. repeat split. }
    destruct (Z.le_gt_cases (clock (world s) - FailureSince feed) (6 * time.Hour)) as [Hf|Hf].
    { rewrite (serveCached_fresh _ _ _ _ H (or_intror Hf)). do 2 eexists. repeat split. }
    rewrite (serveCached_stale _ _ _ _ H Hz Hf). do 2 eexists. repeat split.
  - rewrite (serveCached_pending _ _ _ H). do 2 eexists. repeat split.
Qed.

(** The tail of the handler answers 417 only for a stored value whose
    [FailureSince] is set. *)
Lemma serveCached_417 url s rw s' :
  serveCached url newResponse s = (Ok rw, s') ->
  status rw = Some StatusExpectationFailed ->
  exists feed, info s !! url = Some feed /\ FailureSince feed <> 0.
Proof.
  intros Hrun Hst. destruct (info s !! url) as [feed|] eqn:H.
  - exists feed. split; [reflexivity|]. intros Hz.
    rewrite (serveCached_fresh _ _ _ _ H (or_introl Hz)) in Hrun.
    injection Hrun as <- <-. discriminate.
  - rewrite (serveCached_pending _ _ _ H) in Hrun. injection Hrun as <- <-. discriminate.
Qed.

Lemma string_app_assoc s t u : (s +:+ t) +:+ u = s +:+ t +:+ u.
Proof.
  induction s as [|a s IH]; [reflexivity|].
  change (String a (s +:+ t) +:+ u = String a (s +:+ t +:+ u)).
  change (String a ((s +:+ t) +:+ u) = String a (s +:+ t +:+ u)). rewrite IH. reflexivity.
Qed.

Lemma string_app_nil_r s : s +:+ EmptyString = s.
Proof.
  induction s as [|a s IH]; [reflexivity|].
  change (String a (s +:+ EmptyString) = String a s). rewrite IH. reflexivity.
Qed.

Lemma writeLines_sent urls code text :
  writeLines urls {| status := Some code; body := text |}
  = {| status := Some code; body := text +:+ linesOf urls |}.
Proof.
  revert text; induction urls as [|url rest IH]; intros text; simpl.
  - rewrite string_app_nil_r. reflexivity.
  - unfold writeLines in *. simpl. unfold Write at 2, WriteHeader. simpl.
    rewrite IH, string_app_assoc, string_app_assoc. reflexivity.
Qed.

Lemma rangeOrder_Permutation seed keys : rangeOrder seed keys ≡ₚ keys.
Proof.
  revert seed; induction keys as [|k ks IH]; intros seed; simpl; [reflexivity|].
  rewrite <- Permutation_middle, take_drop. constructor. apply IH.
Qed.

(** And every order of the keys is the order of some seed. *)
Lemma rangeOrder_complete keys order :
  order ≡ₚ keys -> exists seed, rangeOrder seed keys = order.
Proof.
  revert order; induction keys as [|k ks IH]; intros order Hp.
  - apply Permutation_nil_r in Hp. subst. exists 0%nat. reflexivity.
  - assert (Hin : k ∈ order) by (rewrite Hp; apply list_elem_of_here).
    apply list_elem_of_split in Hin as (l1 & l2 & ->).
    assert (Hp' : l1 ++ l2 ≡ₚ ks).
    { apply (Permutation_cons_inv (a := k)). rewrite <- Hp. apply Permutation_middle. }
    destruct (IH _ Hp') as [seed' Hseed].
    assert (Hlen : length (l1 ++ l2) = length ks) by (rewrite Hp'; reflexivity).
    rewrite length_app in Hlen.
    exists (length l1 + seed' * S (length ks))%nat. cbn [rangeOrder].
    rewrite Nat.div_add, Nat.Div0.mod_add by lia.
    rewrite (Nat.div_small (length l1)), (Nat.mod_small (length l1)) by lia.
    cbn [Nat.add]. rewrite Hseed, take_app_length, drop_app_length. reflexivity.
Qed.

Lemma nonempty_length url : url <> EmptyString -> Nat.eqb (String.length url) 0 = false.
Proof. destruct url; [contradiction | reflexivity]. Qed.

Section FeedInfoHandler.
Variables (values : gmap string (list string)) (url : string) (rest : list string).
Hypothesis Hvalues : values !! "url" = Some (url :: rest).
Hypothesis Hurl : url <> EmptyString.

Lemma feedInfoHandler_tracked w s t :
  updaters s !! url = Some t ->
  feedInfoHandler values w s = serveCached url w s.
Proof.
  intros Ht. unfold feedInfoHandler. rewrite Hvalues.
  unfold bind at 1. change (index (url :: rest) 0 s) with (Ok url, s). cbv beta iota.
  rewrite (nonempty_length _ Hurl). unfold bind at 1, readUpdaters. rewrite Ht. reflexivity.
Qed.

Lemma feedInfoHandler_untracked w s :
  updaters s !! url = None ->
  feedInfoHandler values w s
  = match getFeedSize url (world s) with
    | (Panic msg, w1) => (Panic msg, withWorld w1 s)
    | (Ok (marker, _), w1) =>
        if isEmpty marker then
          (Ok (WriteHeader StatusNotFound w),
           logged (url +:+ " isn't alive - return 404") (withWorld w1 s))
        else if Nat.leb FeedsLimit (size (updaters s)) then
          (Ok (writeLines (rangeOrder (rng w1 (draws w1)) (map fst (map_to_list (updaters s))))
                 (Write ("Feeds limit (" +:+ pretty FeedsLimit +:+ ") is exhausted:" +:+ LF)
                    (WriteHeader StatusPaymentRequired w))),
           withWorld (drawn w1) s)
        else serveCached url w (spawned url (withWorld w1 s))
    end.
Proof.
  intros Ht. unfold feedInfoHandler. rewrite Hvalues.
  unfold bind at 1. change (index (url :: rest) 0 s) with (Ok url, s). cbv beta iota.
  rewrite (nonempty_length _ Hurl). unfold bind at 1, readUpdaters. rewrite Ht.
  unfold bind at 1, inEnv at 1, feedIsAlive, bind at 1.
  destruct (getFeedSize url (world s)) as [[[sz stat]|msg] w1]; [|reflexivity].
  unfold ret at 1. cbv beta iota.
  destruct sz as [|a sz]; [reflexivity|].
  cbn [isEmpty negb].
  destruct (Nat.leb FeedsLimit (size (updaters s))); reflexivity.
Qed.

End FeedInfoHandler.

Lemma pretty_FeedsLimit : pretty FeedsLimit = "32".
Proof. vm_compute. reflexivity. Qed.

(** C6. A lookup of a tracked feed whose cached value has [FailureSince] set
    and more than six hours back answers 417, and the body is the fixed
    message with the usual payload written after it. *)
Theorem feedInfoHandler_stale_appends_payload values url rest s t feed :
  values !! "url" = Some (url :: rest) -> url <> EmptyString ->
  updaters s !! url = Some t -> info s !! url = Some feed ->
  FailureSince feed <> 0 -> 6 * time.Hour < clock (world s) - FailureSince feed ->
  exists s',
    feedInfoHandler values newResponse s
    = (Ok {| status := Some 417;
             body := "information could not be obtained for more than 6 hours"
                     +:+ Stat feed +:+ ", vacanciesCount: " +:+ pretty (VacanciesCount feed) |},
       s').
Proof.
  intros Hv Hu Ht Hi Hz Hf.
  rewrite (feedInfoHandler_tracked _ _ _ Hv Hu _ _ _ Ht), (serveCached_stale _ _ _ _ Hi Hz Hf).
  eexists. reflexivity.
Qed.

Lemma feedInfoHandler_stale_appends_payload_at_tracking :
  exists s',
    feedInfoHandler (Scenario.query Scenario.feedA) newResponse
      (Scenario.tracking Scenario.offline (Scenario.startOfDay - 7 * time.Hour)
         (Scenario.startOfDay - time.Hour))
    = (Ok {| status := Some 417;
             body := "information could not be obtained for more than 6 hours"
                     +:+ "mtime:1 size:100 bytes" +:+ ", vacanciesCount: " +:+ pretty 3 |},
       s').
Proof.
  apply (feedInfoHandler_stale_appends_payload (Scenario.query Scenario.feedA)
           Scenario.feedA []
           (Scenario.tracking Scenario.offline (Scenario.startOfDay - 7 * time.Hour)
              (Scenario.startOfDay - time.Hour))
           (Scenario.startOfDay - time.Hour)
           {| Stat := "mtime:1 size:100 bytes"; Size := "100"; VacanciesCount := 3;
              FailureSince := Scenario.startOfDay - 7 * time.Hour |}).
  - apply lookup_singleton_eq.
  - discriminate.
  - apply lookup_singleton_eq.
  - apply lookup_singleton_eq.
  - vm_compute. discriminate.
  - vm_compute. reflexivity.
Defined.


(** A lookup of a feed that is not tracked and does not answer its probe:
    404, whatever the registry holds. *)
Lemma feedInfoHandler_not_alive values url rest s stat w1 :
  values !! "url" = Some (url :: rest) -> url <> EmptyString ->
  updaters s !! url = None ->
  getFeedSize url (world s) = (Ok (EmptyString, stat), w1) ->
  feedInfoHandler values newResponse s
  = (Ok {| status := Some 404; body := EmptyString |},
     logged (url +:+ " isn't alive - return 404") (withWorld w1 s)).
Proof.
  intros Hv Hu Ht Hp. rewrite (feedInfoHandler_untracked _ _ _ Hv Hu _ _ Ht), Hp. reflexivity.
Qed.

(** What a handler run can do to the process: it never writes [info]; it
    leaves [updaters] alone or stamps one feed, which was tracked already or
    is admitted below the limit and gets a worker. *)
Lemma feedInfoHandler_frame values w s :
  exists r s',
    feedInfoHandler values w s = (r, s')
    /\ info s' = info s /\ crashed s' = crashed s
    /\ ((updaters s' = updaters s /\ goroutines s' = goroutines s)
        \/ exists url t,
             updaters s' = <[url := t]> (updaters s)
             /\ ((is_Some (updaters s !! url) /\ goroutines s' = goroutines s)
                 \/ (updaters s !! url = None /\ (size (updaters s) < FeedsLimit)%nat
                     /\ goroutines s' = url :: goroutines s))).
Proof.
  destruct (values !! "url") as [[|url rest]|] eqn:Hv.
  - unfold feedInfoHandler. rewrite Hv. do 2 eexists. split; [reflexivity|]. auto.
  - destruct (string_dec url EmptyString) as [->|Hu].
    { unfold feedInfoHandler. rewrite Hv. do 2 eexists. split; [reflexivity|]. auto. }
    destruct (updaters s !! url) as [t|] eqn:Ht.
    + rewrite (feedInfoHandler_tracked _ _ _ Hv Hu _ _ _ Ht).
      destruct (serveCached_frame url w s) as (rw & s' & -> & Hi & Hup & Hg & Hc).
      do 2 eexists. split; [reflexivity|]. repeat split; auto.
      right. exists url, (clock (world s)). split; [exact Hup|]. left. rewrite Ht. eauto.
    + rewrite (feedInfoHandler_untracked _ _ _ Hv Hu _ _ Ht).
      destruct (getFeedSize url (world s)) as [[[marker stat]|msg] w1].
      2:{ do 2 eexists. split; [reflexivity|]. auto. }
      destruct (isEmpty marker).
      { do 2 eexists. split; [reflexivity|]. auto. }
      destruct (Nat.leb_spec FeedsLimit (size (updaters s))) as [Hfull|Hroom].
      { do 2 eexists. split; [reflexivity|]. auto. }
      destruct (serveCached_frame url w (spawned url (withWorld w1 s)))
        as (rw & s' & -> & Hi & Hup & Hg & Hc).
      do 2 eexists. split; [reflexivity|]. repeat split; auto.
      right. exists url, (clock w1). split; [exact Hup|]. right. auto.
  - unfold feedInfoHandler. rewrite Hv. do 2 eexists. split; [reflexivity|]. auto.
Qed.

(** ** The worker *)

(** One pass through the body of the loop, by the way the refresh ends. *)
Lemma workerBody_unfold url s :
  workerBody url s
  = match updateInfoIfNeed url (info s, world s) with
    | (Panic msg, (feeds', w')) => (Panic msg, refreshed feeds' w' s)
    | (Ok (Some e), (feeds', w')) => (Ok Continue, logged e (refreshed feeds' w' s))
    | (Ok None, (feeds', w')) =>
        if 6 * time.Hour <? time.Sub (clock w') (default 0 (updaters s !! url)) then
          (Ok Return, evicted url (logged (idleMessage url) (refreshed feeds' w' s)))
        else (Ok Continue, refreshed feeds' w' s)
    end.
Proof.
  unfold workerBody, bind at 1, withInfo.
  destruct (updateInfoIfNeed url (info s, world s)) as [[[e|]|msg] [feeds' w']].
  - unfold bind, inEnv, log_Print, readInfo, time_Now, ret. cbn [info world].
    destruct (feeds' !! url) as [feed|]; [|reflexivity].
    destruct (time.IsZero (FailureSince feed)); reflexivity.
  - unfold bind, readUpdaters, inEnv, time.Since. cbn [updaters world].
    destruct (6 * time.Hour <? time.Sub (clock w') (default 0 (updaters s !! url)));
      reflexivity.
  - reflexivity.
Qed.

(** A refresh that does not return nil leaves the map as it was. *)
Lemma updateInfoIfNeed_failure_keeps url feeds w r feeds' w' :
  updateInfoIfNeed url (feeds, w) = (r, (feeds', w')) -> r <> Ok None -> feeds' = feeds.
Proof.
  intros H Hr.
  destruct (updateInfoIfNeed_outcome url feeds w) as (r0 & f0 & w0 & E & _ & Hkeep & _).
  rewrite E in H. injection H as <- <- <-. exact (Hkeep Hr).
Qed.

(** C5. When the refresh of a tick fails while the stored value of the feed
    has a zero [FailureSince], the worker goes on with its loop and evicts
    nothing, and the stored value is what it was: its [FailureSince] is
    still zero, the time of the failure is not recorded. *)
Theorem workerBody_failure_not_recorded url s e feeds' w' feed :
  updateInfoIfNeed url (info s, world s) = (Ok (Some e), (feeds', w')) ->
  info s !! url = Some feed -> FailureSince feed = 0 ->
  exists s',
    workerBody url s = (Ok Continue, s')
    /\ info s' = info s /\ updaters s' = updaters s
    /\ exists feed', info s' !! url = Some feed' /\ FailureSince feed' = 0.
Proof.
  intros H Hi Hz. rewrite workerBody_unfold, H.
  assert (feeds' = info s) as -> by (apply (updateInfoIfNeed_failure_keeps _ _ _ _ _ _ H); discriminate).
  eexists. split; [reflexivity|]. cbn [info updaters logged refreshed].
  repeat split. exists feed. auto.
Qed.

Lemma workerBody_failure_not_recorded_at_offline :
  exists s',
    workerBody Scenario.feedA
      (Scenario.tracking Scenario.offline 0 Scenario.startOfDay) = (Ok Continue, s')
    /\ info s' = Scenario.cachedA 0
    /\ updaters s' = {[ Scenario.feedA := Scenario.startOfDay ]}
    /\ exists feed', info s' !! Scenario.feedA = Some feed' /\ FailureSince feed' = 0.
Proof.
  eapply (workerBody_failure_not_recorded Scenario.feedA
            (Scenario.tracking Scenario.offline 0 Scenario.startOfDay)).
  - reflexivity.
  - apply lookup_singleton_eq.
  - reflexivity.
Defined.



(** ** What holds in every reachable state *)

Lemma init_Inv w : Inv (init w).
Proof.
  split; simpl.
  - rewrite map_size_empty. unfold FeedsLimit. lia.
  - apply map_Forall_empty.
Qed.

Lemma updateInfoIfNeed_zero url feeds w r feeds' w' :
  updateInfoIfNeed url (feeds, w) = (r, (feeds', w')) ->
  map_Forall (fun _ feed => FailureSince feed = 0) feeds ->
  map_Forall (fun _ feed => FailureSince feed = 0) feeds'.
Proof.
  intros H Hz.
  destruct (updateInfoIfNeed_outcome url feeds w) as (r0 & f0 & w0 & E & Hcase & _).
  rewrite E in H. injection H as <- <- <-.
  destruct Hcase as [->|(size & stat & vc & w1 & w3 & _ & _ & _ & ->)]; [exact Hz|].
  apply map_Forall_insert_2; [reflexivity | exact Hz].
Qed.

Lemma workerBody_Inv url s r s' :
  workerBody url s = (r, s') -> Inv s -> Inv s'.
Proof.
  rewrite workerBody_unfold. intros H [Hsize Hz].
  destruct (updateInfoIfNeed url (info s, world s)) as [[[e|]|msg] [feeds' w']] eqn:E;
    pose proof (updateInfoIfNeed_zero _ _ _ _ _ _ E Hz) as Hz'.
  - injection H as <- <-. split; [exact Hsize | exact Hz'].
  - destruct (6 * time.Hour <? time.Sub (clock w') (default 0 (updaters s !! url)));
      injection H as <- <-; (split; [|]); cbn [info updaters evicted logged refreshed].
    + rewrite map_size_delete. unfold FeedsLimit in *.
      destruct (updaters s !! url); unfold id; lia.
    + apply map_Forall_delete. exact Hz'.
    + exact Hsize.
    + exact Hz'.
  - injection H as <- <-. split; [exact Hsize | exact Hz'].
Qed.

Lemma feedInfoHandler_Inv values w s r s' :
  feedInfoHandler values w s = (r, s') -> Inv s -> Inv s'.
Proof.
  intros H [Hsize Hz].
  destruct (feedInfoHandler_frame values w s) as (r0 & s0 & E & Hi & _ & Hup).
  rewrite E in H. injection H as <- <-. split; [|rewrite Hi; exact Hz].
  destruct Hup as [[-> _]|(url & t & -> & [[[t0 Ht] _]|(Ht & Hroom & _)])]; [exact Hsize| |].
  - rewrite map_size_insert_Some by (rewrite Ht; eauto). exact Hsize.
  - rewrite map_size_insert_None by exact Ht. unfold FeedsLimit in *. lia.
Qed.

Lemma exec_Inv a s : Inv s -> Inv (exec a s).
Proof.
  intros HI. unfold exec. destruct (crashed s); [exact HI|].
  destruct a as [values|url|d].
  - destruct (feedInfoHandler values newResponse s) as [r s'] eqn:E.
    exact (feedInfoHandler_Inv _ _ _ _ _ E HI).
  - destruct (bool_decide (url ∈ goroutines s)); [|exact HI].
    destruct (workerBody url s) as [r s'] eqn:E.
    pose proof (workerBody_Inv _ _ _ _ E HI) as HI'.
    destruct r as [[|]|msg]; exact HI'.
  - exact HI.
Qed.

Lemma run_Inv acts s : Inv s -> Inv (run acts s).
Proof.
  revert s; induction acts as [|a acts IH]; intros s HI; [exact HI|].
  apply IH, exec_Inv, HI.
Qed.

Lemma reachable_Inv s : reachable s -> Inv s.
Proof. intros (w & acts & ->). apply run_Inv, init_Inv. Qed.

(** A handler run answers 417 only from a stored value whose [FailureSince]
    is set. *)
Lemma feedInfoHandler_417 values s rw s' :
  feedInfoHandler values newResponse s = (Ok rw, s') ->
  status rw = Some StatusExpectationFailed ->
  exists url feed, info s !! url = Some feed /\ FailureSince feed <> 0.
Proof.
  intros H Hst.
  destruct (values !! "url") as [[|url rest]|] eqn:Hv.
  - unfold feedInfoHandler in H. rewrite Hv in H. discriminate.
  - destruct (string_dec url EmptyString) as [->|Hu].
    { unfold feedInfoHandler in H. rewrite Hv in H. injection H as <- <-. discriminate. }
    destruct (updaters s !! url) as [t|] eqn:Ht.
    + rewrite (feedInfoHandler_tracked _ _ _ Hv Hu _ _ _ Ht) in H.
      exists url. exact (serveCached_417 _ _ _ _ H Hst).
    + rewrite (feedInfoHandler_untracked _ _ _ Hv Hu _ _ Ht) in H.
      destruct (getFeedSize url (world s)) as [[[marker stat]|msg] w1]; [|discriminate].
      destruct (isEmpty marker).
      { injection H as <- <-. discriminate. }
      destruct (Nat.leb FeedsLimit (size (updaters s))).
      { injection H as <- <-. unfold Write, WriteHeader, newResponse in Hst.
        cbn [status body] in Hst. rewrite writeLines_sent in Hst. discriminate. }
      exists url. exact (serveCached_417 _ _ _ _ H Hst).
  - unfold feedInfoHandler in H. rewrite Hv in H. injection H as <- <-. discriminate.
Qed.

(** C10. In every reachable state every value stored in [info] has a zero
    [FailureSince], and no lookup answers 417. *)
Theorem FailureSince_never_stored s :
  reachable s ->
  (forall url feed,
      info s !! url = Some feed ->
      FailureSince feed = 0 /\ time.IsZero (FailureSince feed) = true)
  /\ (forall values rw s',
        feedInfoHandler values newResponse s = (Ok rw, s') ->
        status rw <> Some StatusExpectationFailed).
Proof.
  intros Hr. destruct (reachable_Inv _ Hr) as [_ Hz]. split.
  - intros url feed Hi. rewrite (Hz _ _ Hi). auto.
  - intros values rw s' H Hst.
    destruct (feedInfoHandler_417 _ _ _ _ H Hst) as (url & feed & Hi & Hne).
    exact (Hne (Hz _ _ Hi)).
Qed.

Lemma FailureSince_never_stored_at_warm :
  (exists feed, info Scenario.warm !! Scenario.feedA = Some feed /\ FailureSince feed = 0)
  /\ fst (feedInfoHandler (Scenario.query Scenario.feedA) newResponse Scenario.warm)
     = Ok {| status := Some 200; body := "mtime:1 size:100 bytes, vacanciesCount: 3" |}.
Proof.
  assert (Hr : reachable Scenario.warm).
  { exists Scenario.healthy, [Lookup (Scenario.query Scenario.feedA); Tick Scenario.feedA].
    reflexivity. }
  destruct (FailureSince_never_stored Scenario.warm Hr) as [Hzero Hnever].
  split.
  - exists {| Stat := "mtime:1 size:100 bytes"; Size := "100"; VacanciesCount := 3;
              FailureSince := 0 |}.
    assert (Hi : info Scenario.warm !! Scenario.feedA
                 = Some {| Stat := "mtime:1 size:100 bytes"; Size := "100";
                           VacanciesCount := 3; FailureSince := 0 |})
      by (vm_compute; reflexivity).
    split; [exact Hi | exact (proj1 (Hzero _ _ Hi))].
  - vm_compute. reflexivity.
Defined.





(** ** The end-to-end example of the specification, run *)

(** The first lookup is answered 202; after the first pass of the worker the
    lookup gives the stat and the count 3; a pass that sees the same stat
    does not ask for the archive again and the answer stays; a pass that
    sees a new stat counts again, and the answer has the new stat and the
    count 5. *)
Example end_to_end :
  let look := Lookup (Scenario.query Scenario.feedA) in
  let pass := Tick Scenario.feedA in
  Scenario.answerAfter [] = Ok {| status := Some 202; body := EmptyString |}
  /\ Scenario.answerAfter [look; pass]
     = Ok {| status := Some 200; body := "mtime:1 size:100 bytes, vacanciesCount: 3" |}
  /\ Scenario.countsAfter [look; pass] = 1%nat
  /\ Scenario.answerAfter [look; pass; look; pass]
     = Ok {| status := Some 200; body := "mtime:1 size:100 bytes, vacanciesCount: 3" |}
  /\ Scenario.countsAfter [look; pass; look; pass] = 1%nat
  /\ Scenario.answerAfter [look; pass; look; pass; pass]
     = Ok {| status := Some 200; body := "mtime:2 size:150 bytes, vacanciesCount: 5" |}
  /\ Scenario.countsAfter [look; pass; look; pass; pass] = 2%nat.
Proof. vm_compute. repeat split. Qed.

(** * The code around the claims *)

(** ** The stat probe, in every case *)

Lemma since_emit w e : since w (emit e w) = [e].
Proof. unfold since, emit. simpl. apply drop_app_length. Qed.

Lemma since_emit2 w e1 e2 : since w (emit e2 (emit e1 w)) = [e1; e2].
Proof.
  unfold since, emit. simpl. rewrite <- (assoc_L (++)). apply drop_app_length.
Qed.

Lemma since_trans w0 w1 w2 :
  trace w1 = (trace w0 ++ since w0 w1)%list ->
  trace w2 = (trace w1 ++ since w1 w2)%list ->
  since w0 w2 = (since w0 w1 ++ since w1 w2)%list
  /\ trace w2 = (trace w0 ++ since w0 w2)%list.
Proof.
  intros H1 H2.
  assert (E : trace w2 = (trace w0 ++ (since w0 w1 ++ since w1 w2))%list).
  { rewrite H2 at 1. rewrite H1 at 1. rewrite <- (assoc_L (++)). reflexivity. }
  assert (S : since w0 w2 = (since w0 w1 ++ since w1 w2)%list).
  { unfold since at 1. rewrite E. apply drop_app_length. }
  split; [exact S|]. rewrite S. exact E.
Qed.

(** The probe in one equation. *)
Lemma getFeedSize_unfold url w :
  let statUrl := url +:+ "?stat" in
  let asked := emit (EvGet statUrl) w in
  getFeedSize url w
  = match net w (trace w) statUrl with
    | inl err =>
        (Ok (EmptyString, EmptyString),
         emit (EvLog ("Error fetching stat from " +:+ statUrl +:+ ": " +:+ err +:+ LF)) asked)
    | inr res =>
        if 300 <=? StatusCode res then
          (Ok (EmptyString, EmptyString),
           emit (EvLog ("Got '" +:+ Status res +:+ "' from " +:+ statUrl +:+ LF)) asked)
        else
          match readErr (ResBody res) with
          | Some e =>
              (Ok (EmptyString, bytes (ResBody res)),
               emit (EvLog ("Error fetching stat from " +:+ statUrl +:+ ": " +:+ e +:+ LF))
                 asked)
          | None =>
              match Regexp.FindSubmatch (bytes (ResBody res)) !! 1%nat with
              | Some size => (Ok (size, bytes (ResBody res)), asked)
              | None => (Panic "index out of range", asked)
              end
          end
    end.
Proof.
  intros statUrl asked.
  destruct (net w (trace w) statUrl) as [err|res] eqn:Hnet.
  { exact (getFeedSize_transport_error _ _ _ Hnet). }
  destruct (Z.leb_spec 300 (StatusCode res)) as [Hc|Hc].
  { exact (getFeedSize_bad_status _ _ _ Hnet Hc). }
  destruct (readErr (ResBody res)) as [e|] eqn:He.
  { exact (getFeedSize_read_error _ _ _ _ Hnet Hc He). }
  exact (getFeedSize_read _ _ _ Hnet Hc He).
Qed.

Lemma extends_refl w : extends w w.
Proof.
  unfold extends, sameSurroundings, since. rewrite drop_all, (right_id_L [] (++)). auto.
Qed.

Lemma extends_emit w e : extends w (emit e w).
Proof. unfold extends, sameSurroundings. rewrite since_emit. auto. Qed.

Lemma extends_trans w0 w1 w2 : extends w0 w1 -> extends w1 w2 -> extends w0 w2.
Proof.
  intros [(N1 & R1 & D1 & C1) T1] [(N2 & R2 & D2 & C2) T2]. split.
  - unfold sameSurroundings. rewrite N2, R2, D2, C2. auto.
  - exact (proj2 (since_trans _ _ _ T1 T2)).
Qed.

Lemma since_extends w0 w1 w2 :
  extends w0 w1 -> extends w1 w2 -> since w0 w2 = (since w0 w1 ++ since w1 w2)%list.
Proof. intros [_ T1] [_ T2]. exact (proj1 (since_trans _ _ _ T1 T2)). Qed.

(** What any run of the probe does to the world. *)
Lemma getFeedSize_world url w :
  extends w (snd (getFeedSize url w))
  /\ exists logs,
       since w (snd (getFeedSize url w)) = EvGet (url +:+ "?stat") :: logs
       /\ (length logs <= 1)%nat /\ Forall (fun e => isRequest e = false) logs.
Proof.
  set (asked := emit (EvGet (url +:+ "?stat")) w).
  assert (H1 : forall e,
             extends w (emit (EvLog e) asked)
             /\ exists logs,
                  since w (emit (EvLog e) asked) = EvGet (url +:+ "?stat") :: logs
                  /\ (length logs <= 1)%nat /\ Forall (fun e => isRequest e = false) logs).
  { intros e. split.
    - exact (extends_trans _ _ _ (extends_emit _ _) (extends_emit _ _)).
    - unfold asked. rewrite since_emit2. exists [EvLog e].
      repeat split; [simpl; lia|]. repeat constructor. }
  assert (H0 : extends w asked
               /\ exists logs,
                    since w asked = EvGet (url +:+ "?stat") :: logs
                    /\ (length logs <= 1)%nat /\ Forall (fun e => isRequest e = false) logs).
  { split; [apply extends_emit|]. unfold asked. rewrite since_emit. exists [].
    repeat split; [simpl; lia|constructor]. }
  rewrite getFeedSize_unfold. cbv zeta. fold asked.
  destruct (net w (trace w) (url +:+ "?stat")) as [err|res]; [apply H1|].
  destruct (300 <=? StatusCode res); [apply H1|].
  destruct (readErr (ResBody res)); [apply H1|].
  destruct (Regexp.FindSubmatch (bytes (ResBody res)) !! 1%nat); apply H0.
Qed.

Module RegexpMore.
Import Regexp.

Local Arguments String.append !_ _ / : simpl nomatch.

(** A match that [FindSubmatch] returns is the first one in the text: the
    text splits around it, and no match starts at a byte before it. *)
Lemma FindSubmatch_first s whole d :
  FindSubmatch s = [whole; d] ->
  exists pre post,
    s = pre +:+ "size:" +:+ d +:+ " bytes" +:+ post
    /\ whole = "size:" +:+ d +:+ " bytes"
    /\ d <> EmptyString /\ allDigits d = true
    /\ forall p1 p2,
         pre = p1 +:+ p2 -> p2 <> EmptyString ->
         matchHere (p2 +:+ "size:" +:+ d +:+ " bytes" +:+ post) = None.
Proof.
  revert whole d; induction s as [|c s IH]; intros whole d; simpl.
  - destruct (matchHere EmptyString) as [[w0 d0]|] eqn:E; [|discriminate].
    vm_compute in E. discriminate.
  - destruct (matchHere (String c s)) as [[w0 d0]|] eqn:E.
    + intros [= -> ->].
      apply RegexpFacts.matchHere_Some in E as (post & Hs & Hw & Hne & Hd).
      exists EmptyString, post. repeat split; auto.
      intros p1 p2 Hp Hp2. destruct p1; destruct p2; try discriminate. contradiction.
    + intros H. destruct (IH _ _ H) as (pre & post & Hs & Hw & Hne & Hd & Hfirst).
      exists (String c pre), post.
      split; [change (String c s = String c (pre +:+ "size:" +:+ d +:+ " bytes" +:+ post));
              rewrite <- Hs; reflexivity|].
      repeat split; auto.
      intros p1 p2 Hp Hp2. destruct p1 as [|c1 p1].
      * change (String c pre = p2) in Hp. subst p2.
        change (matchHere (String c (pre +:+ "size:" +:+ d +:+ " bytes" +:+ post)) = None).
        rewrite <- Hs. exact E.
      * change (String c pre = String c1 (p1 +:+ p2)) in Hp. injection Hp as -> ->.
        exact (Hfirst _ _ eq_refl Hp2).
Qed.

End RegexpMore.

(** X1. A size marker that the probe returns is never invented: it is a run
    of one digit or more, the stat that comes with it is the whole body of a
    response with a status below 300, and the marker stands in that body in
    the first place where [size:<digits> bytes] can be read. The one request
    made was for the stat sidecar. *)
Theorem getFeedSize_marker_read_from_body url w size stat w1 :
  getFeedSize url w = (Ok (size, stat), w1) -> size <> EmptyString ->
  Regexp.allDigits size = true
  /\ requestsSince w w1 = [url +:+ "?stat"]
  /\ (exists res,
        net w (trace w) (url +:+ "?stat") = inr res
        /\ StatusCode res < 300 /\ stat = bytes (ResBody res))
  /\ exists pre post,
       stat = pre +:+ "size:" +:+ size +:+ " bytes" +:+ post
       /\ forall p1 p2 d post',
            pre = p1 +:+ p2 -> p2 <> EmptyString ->
            d <> EmptyString -> Regexp.allDigits d = true ->
            p2 +:+ "size:" +:+ size +:+ " bytes" +:+ post
            <> "size:" +:+ d +:+ " bytes" +:+ post'.
Proof.
  intros H Hne.
  destruct (getFeedSize_success _ _ _ _ _ H Hne)
    as (-> & res & whole & Hnet & Hc & _ & Hstat & Hfind).
  destruct (RegexpMore.FindSubmatch_first _ _ _ Hfind)
    as (pre & post & Hs & _ & _ & Hd & Hfirst).
  split; [exact Hd|]. split.
  { unfold requestsSince. rewrite since_emit. reflexivity. }
  split; [exists res; auto|].
  exists pre, post. split; [exact Hs|].
  intros p1 p2 d post' Hp Hp2 Hdne Hdd Heq.
  pose proof (Hfirst _ _ Hp Hp2) as Hnone.
  rewrite Heq, (RegexpFacts.matchHere_complete d post' Hdne Hdd) in Hnone. discriminate.
Qed.

Lemma getFeedSize_marker_read_from_body_at_healthy :
  Regexp.allDigits "100" = true
  /\ requestsSince Scenario.healthy
       (emit (EvGet (Scenario.feedA +:+ "?stat")) Scenario.healthy)
     = [Scenario.feedA +:+ "?stat"]
  /\ (exists res,
        net Scenario.healthy (trace Scenario.healthy) (Scenario.feedA +:+ "?stat") = inr res
        /\ StatusCode res < 300 /\ "mtime:1 size:100 bytes" = bytes (ResBody res))
  /\ exists pre post,
       "mtime:1 size:100 bytes" = pre +:+ "size:" +:+ "100" +:+ " bytes" +:+ post
       /\ forall p1 p2 d post',
            pre = p1 +:+ p2 -> p2 <> EmptyString ->
            d <> EmptyString -> Regexp.allDigits d = true ->
            p2 +:+ "size:" +:+ "100" +:+ " bytes" +:+ post
            <> "size:" +:+ d +:+ " bytes" +:+ post'.
Proof.
  apply (getFeedSize_marker_read_from_body Scenario.feedA Scenario.healthy
           "100" "mtime:1 size:100 bytes"
           (emit (EvGet (Scenario.feedA +:+ "?stat")) Scenario.healthy)).
  - reflexivity.
  - discriminate.
Defined.

(** X2. The probe returns the empty size marker in three cases and in no
    other: the request failed, the status is 300 or more, or reading the
    body failed. In the first two the stat is empty too; in the third it is
    what was read of the body. *)
Theorem getFeedSize_empty_marker_cases url w stat :
  fst (getFeedSize url w) = Ok (EmptyString, stat)
  <-> (exists err, net w (trace w) (url +:+ "?stat") = inl err /\ stat = EmptyString)
      \/ (exists res,
            net w (trace w) (url +:+ "?stat") = inr res
            /\ ((300 <= StatusCode res /\ stat = EmptyString)
                \/ (StatusCode res < 300
                    /\ is_Some (readErr (ResBody res)) /\ stat = bytes (ResBody res)))).
Proof.
  rewrite getFeedSize_unfold. cbv zeta.
  destruct (net w (trace w) (url +:+ "?stat")) as [err|res].
  { cbn [fst]. split.
    - intros [= <-]. left. eauto.
    - intros [(e & _ & ->)|(res & Hr & _)]; [reflexivity | discriminate]. }
  destruct (Z.leb_spec 300 (StatusCode res)) as [Hc|Hc].
  { cbn [fst]. split.
    - intros [= <-]. right. exists res. split; [reflexivity|]. left. auto.
    - intros [(e & He & _)|(res' & [= <-] & [[_ ->]|(Hlt & _)])];
        [discriminate | reflexivity | lia]. }
  destruct (readErr (ResBody res)) as [e|] eqn:He.
  { cbn [fst]. split.
    - intros [= <-]. right. exists res. split; [reflexivity|]. right.
      rewrite He. eauto.
    - intros [(e' & He' & _)|(res' & [= <-] & [[Hge _]|(_ & _ & ->)])];
        [discriminate | lia | reflexivity]. }
  destruct (RegexpFacts.FindSubmatch_shape (bytes (ResBody res)))
    as [E | (whole & d & E & Hne & _)]; rewrite E; cbn [fst lookup list_lookup]; simpl.
  - split; [discriminate|].
    intros [(e' & He' & _)|(res' & [= <-] & [[Hge _]|(_ & [x Hx] & _)])];
      [discriminate | lia | congruence].
  - split.
    + intros [= Hd _]. contradiction.
    + intros [(e' & He' & _)|(res' & [= <-] & [[Hge _]|(_ & [x Hx] & _)])];
        [discriminate | lia | congruence].
Qed.

(** X3. Whatever comes back, one run of the probe asks for the stat sidecar
    once and for nothing else, writes one log line at most, and leaves the
    clock and the rest of the world alone. *)
Theorem getFeedSize_one_request url w :
  requestsSince w (snd (getFeedSize url w)) = [url +:+ "?stat"]
  /\ (length (since w (snd (getFeedSize url w))) <= 2)%nat
  /\ sameSurroundings w (snd (getFeedSize url w)).
Proof.
  destruct (getFeedSize_world url w) as ([Hs _] & logs & Hsince & Hlen & Hlogs).
  split; [|split; [rewrite Hsince; simpl; lia | exact Hs]].
  unfold requestsSince. rewrite Hsince. cbn [omap list_omap]. f_equal.
  clear Hsince Hlen. induction Hlogs as [|e logs He _ IH]; [reflexivity|].
  destruct e; [discriminate|]. exact IH.
Qed.

(** X4. [feedIsAlive] says yes exactly for a response with a status below
    300 whose body was read whole and holds the pattern, says no exactly in
    the three cases of the empty marker, and panics exactly for a body read
    whole that does not hold the pattern. *)
Theorem feedIsAlive_cases url w :
  (fst (feedIsAlive url w) = Ok true
   <-> exists res,
         net w (trace w) (url +:+ "?stat") = inr res /\ StatusCode res < 300
         /\ readErr (ResBody res) = None /\ Regexp.Matches (bytes (ResBody res)))
  /\ (fst (feedIsAlive url w) = Ok false
      <-> (exists err, net w (trace w) (url +:+ "?stat") = inl err)
          \/ exists res,
               net w (trace w) (url +:+ "?stat") = inr res
               /\ (300 <= StatusCode res \/ is_Some (readErr (ResBody res))))
  /\ ((exists msg, fst (feedIsAlive url w) = Panic msg)
      <-> exists res,
            net w (trace w) (url +:+ "?stat") = inr res /\ StatusCode res < 300
            /\ readErr (ResBody res) = None /\ ~ Regexp.Matches (bytes (ResBody res))).
Proof.
  unfold feedIsAlive, bind. rewrite getFeedSize_unfold. cbv zeta.
  destruct (net w (trace w) (url +:+ "?stat")) as [err|res].
  { cbn. repeat split; try discriminate; eauto.
    - intros (res & [=] & _).
    - intros (msg & [=]).
    - intros (res & [=] & _). }
  destruct (Z.leb_spec 300 (StatusCode res)) as [Hc|Hc].
  { cbn. repeat split; try discriminate; eauto.
    - intros (res' & [= <-] & Hlt & _). lia.
    - intros (msg & [=]).
    - intros (res' & [= <-] & Hlt & _). lia. }
  destruct (readErr (ResBody res)) as [e|] eqn:He.
  { cbn. repeat split; try discriminate.
    - intros (res' & [= <-] & _ & Hn & _). congruence.
    - intros _. right. exists res. split; [reflexivity|]. right. rewrite He. eauto.
    - intros (msg & [=]).
    - intros (res' & [= <-] & _ & Hn & _). congruence. }
  destruct (RegexpFacts.FindSubmatch_shape (bytes (ResBody res)))
    as [E | (whole & d & E & Hne & _ & Hm)]; rewrite E; cbn.
  - apply RegexpFacts.FindSubmatch_nil in E. repeat split; try discriminate.
    + intros (res' & [= <-] & _ & _ & Hm). contradiction.
    + intros [(e & [=])|(res' & [= <-] & [Hge|[x Hx]])]; [lia | congruence].
    + intros _. exists res. auto.
    + eauto.
  - destruct d as [|a d]; [contradiction|]. cbn. repeat split; try discriminate.
    + intros _. exists res. auto.
    + intros [(e & [=])|(res' & [= <-] & [Hge|[x Hx]])]; [lia | congruence].
    + intros (msg & [=]).
    + intros (res' & [= <-] & _ & _ & Hn). contradiction.
Qed.

(** ** The archive counter, in every case *)

(** X5. For an archive that unpacks and tokenizes to its end, the counter
    returns, with a nil error, the number of start tags whose local name is
    [vacancy]: end tags, text, comments and start tags of any other name do
    not count. *)
Theorem countVacancies_counts_start_tags url w res :
  net w (trace w) url = inr res -> gzipErr (ResBody res) = None ->
  tokenErr (ResBody res) = "EOF" ->
  Z.of_nat (length (tokens (ResBody res))) < 2 ^ 63 ->
  countVacancies url w
  = (Ok (Z.of_nat (length (List.filter isVacancy (tokens (ResBody res)))), None),
     emit (EvGet url) w).
Proof.
  intros H He _ Hlen. rewrite (countVacancies_unpacked _ _ _ H He).
  unfold xml_NewDecoder. rewrite countLoop_counts; [reflexivity | lia | lia].
Qed.

Lemma countVacancies_counts_start_tags_at_healthy :
  countVacancies Scenario.feedA Scenario.healthy
  = (Ok (3, None), emit (EvGet Scenario.feedA) Scenario.healthy).
Proof.
  apply (countVacancies_counts_start_tags Scenario.feedA Scenario.healthy
           {| StatusCode := 200; Status := "200 OK";
              ResBody := Scenario.archiveBody
                           (StartElement "vacancies" :: Scenario.vacancy ++ Scenario.vacancy
                              ++ Scenario.vacancy ++ [EndElement "vacancies"]) "EOF" |}).
  - reflexivity.
  - reflexivity.
  - reflexivity.
  - vm_compute. reflexivity.
Defined.

(** X6. The counter does not look at the status of the response: two
    responses with the same body give the same count and the same error,
    whatever their status lines. *)
Theorem countVacancies_ignores_status url w w' res res' :
  net w (trace w) url = inr res -> net w' (trace w') url = inr res' ->
  ResBody res = ResBody res' ->
  fst (countVacancies url w) = fst (countVacancies url w').
Proof.
  intros H H' Hb. unfold countVacancies, bind, http_Get. rewrite H, H', Hb.
  destruct (gzip_NewReader (ResBody res')); reflexivity.
Qed.

Lemma countVacancies_ignores_status_at_404 :
  fst (countVacancies Scenario.feedA Scenario.healthy)
  = fst (countVacancies Scenario.feedA Cases.archiveWith404).
Proof.
  eapply (countVacancies_ignores_status Scenario.feedA Scenario.healthy Cases.archiveWith404).
  - reflexivity.
  - reflexivity.
  - reflexivity.
Defined.

(** X7. The counter never panics, and it returns an error in two cases and
    in no other: the request failed, or the body does not start as a gzip
    stream. The count that comes with an error is 0, and the error names the
    URL and what went wrong. *)
Theorem countVacancies_error_cases url w :
  (exists vc err, fst (countVacancies url w) = Ok (vc, err))
  /\ forall vc e,
       fst (countVacancies url w) = Ok (vc, Some e)
       <-> vc = 0
           /\ ((exists err,
                  net w (trace w) url = inl err
                  /\ e = "Error fetching archive from " +:+ url +:+ ": " +:+ err)
               \/ exists res err,
                    net w (trace w) url = inr res /\ gzipErr (ResBody res) = Some err
                    /\ e = "Error uncompressing response from " +:+ url +:+ ": " +:+ err).
Proof.
  split; [exact (proj2 (countVacancies_asks url w))|].
  intros vc e.
  destruct (net w (trace w) url) as [err|res] eqn:Hnet.
  { rewrite (countVacancies_fetch_error _ _ _ Hnet). cbn [fst]. split.
    - intros [= <- <-]. split; [reflexivity|]. left. eauto.
    - intros (-> & [(err' & [= <-] & ->)|(res & err' & [=] & _)]). reflexivity. }
  destruct (gzipErr (ResBody res)) as [err|] eqn:He.
  { rewrite (countVacancies_not_gzip _ _ _ _ Hnet He). cbn [fst]. split.
    - intros [= <- <-]. split; [reflexivity|]. right. eauto.
    - intros (-> & [(err' & [=] & _)|(res' & err' & [= <-] & He' & ->)]).
      rewrite He in He'. injection He' as <-. reflexivity. }
  rewrite (countVacancies_unpacked _ _ _ Hnet He). cbn [fst]. split.
  - discriminate.
  - intros (_ & [(err' & [=] & _)|(res' & err' & [= <-] & He' & _)]). congruence.
Qed.

(** ** The refresh, in every case *)

(** The refresh in one equation. *)
Lemma updateInfoIfNeed_unfold url feeds w :
  updateInfoIfNeed url (feeds, w)
  = match getFeedSize url w with
    | (Panic msg, w1) => (Panic msg, (feeds, w1))
    | (Ok (size, stat), w1) =>
        if isEmpty size then
          (Ok (Some ("Error getting feed " +:+ url +:+ " size - skip info update" +:+ LF)),
           (feeds, w1))
        else if sameMarker feeds url size then (Ok None, (feeds, w1))
        else
          match countVacancies url (emit (countingLine url) w1) with
          | (Ok (vc, None), w3) =>
              (Ok None,
               (<[url := {| Stat := stat; Size := size; VacanciesCount := vc;
                            FailureSince := 0 |}]> feeds,
                emit (EvLog (pretty vc)) w3))
          | (Ok (_, Some e), w3) =>
              (Ok (Some ("Error counting vacancies: " +:+ e)), (feeds, w3))
          | (Panic msg, w3) => (Panic msg, (feeds, w3))
          end
    end.
Proof.
  destruct (getFeedSize url w) as [[[size stat]|msg] w1] eqn:H.
  2:{ exact (updateInfoIfNeed_panics _ _ _ _ _ H). }
  destruct size as [|c size]; cbn [isEmpty].
  { exact (updateInfoIfNeed_unreachable _ _ _ _ _ H). }
  assert (Hne : String c size <> EmptyString) by discriminate.
  unfold sameMarker. destruct (feeds !! url) as [fi|] eqn:Hfi.
  - destruct (String.eqb_spec (Size fi) (String c size)) as [Heq|Hneq].
    + exact (updateInfoIfNeed_unchanged _ _ _ _ _ _ _ H Hne Hfi Heq).
    + apply (updateInfoIfNeed_changed _ _ _ _ _ _ H Hne).
      intros fi' Hfi'. assert (fi' = fi) as -> by congruence. exact Hneq.
  - apply (updateInfoIfNeed_changed _ _ _ _ _ _ H Hne). intros fi' Hfi'. congruence.
Qed.

Lemma countVacancies_extends url w : extends w (snd (countVacancies url w)).
Proof. rewrite (proj1 (countVacancies_asks url w)). apply extends_emit. Qed.

(** What any refresh does to the world: one request for the stat, and after
    it one request for the archive when it goes on to count. *)
Lemma updateInfoIfNeed_world url feeds w :
  let w' := snd (snd (updateInfoIfNeed url (feeds, w))) in
  extends w w'
  /\ requestsSince w w'
     = (url +:+ "?stat") :: (if recounts url feeds w then [url] else []).
Proof.
  cbv zeta. unfold recounts. rewrite updateInfoIfNeed_unfold.
  destruct (getFeedSize_world url w) as (Hext & logs & Hsince & _ & Hlogs).
  assert (Hreq : requestsSince w (snd (getFeedSize url w)) = [url +:+ "?stat"]).
  { unfold requestsSince. rewrite Hsince. cbn [omap list_omap]. f_equal.
    clear Hsince. induction Hlogs as [|e logs He _ IH]; [reflexivity|].
    destruct e; [discriminate|]. exact IH. }
  destruct (getFeedSize url w) as [[[size stat]|msg] w1]; cbn [fst snd] in *; [|auto].
  destruct (isEmpty size); cbn [snd negb andb]; [auto|].
  destruct (sameMarker feeds url size); cbn [snd negb andb]; [auto|].
  set (w2 := emit (countingLine url) w1).
  pose proof (countVacancies_asks url w2) as [Hw3 _].
  assert (H3 : extends w (emit (EvGet url) w2)
               /\ requestsSince w (emit (EvGet url) w2) = [url +:+ "?stat"; url]).
  { assert (E12 : extends w1 (emit (EvGet url) w2))
      by exact (extends_trans _ _ _ (extends_emit _ _) (extends_emit _ _)).
    split; [exact (extends_trans _ _ _ Hext E12)|].
    unfold requestsSince in *. rewrite (since_extends _ _ _ Hext E12), omap_app, Hreq.
    unfold w2. rewrite since_emit2. reflexivity. }
  destruct (countVacancies url w2) as [[[vc [e|]]|msg] w3]; cbn [snd] in *; subst w3.
  - exact H3.
  - destruct H3 as [H3 H3r]. split.
    + exact (extends_trans _ _ _ H3 (extends_emit _ _)).
    + unfold requestsSince in *.
      rewrite (since_extends _ _ _ H3 (extends_emit _ _)), omap_app, H3r, since_emit.
      reflexivity.
  - exact H3.
Qed.

(** The marker that a successful refresh leaves in the map is the marker of
    its probe. *)
Lemma updateInfoIfNeed_success url feeds w feeds' w' :
  updateInfoIfNeed url (feeds, w) = (Ok None, (feeds', w')) ->
  exists size stat w1 fi,
    getFeedSize url w = (Ok (size, stat), w1) /\ size <> EmptyString
    /\ feeds' !! url = Some fi /\ Size fi = size.
Proof.
  rewrite updateInfoIfNeed_unfold.
  destruct (getFeedSize url w) as [[[size stat]|msg] w1]; [|discriminate].
  destruct size as [|c size]; cbn [isEmpty]; [discriminate|].
  unfold sameMarker. destruct (feeds !! url) as [fi|] eqn:Hfi.
  - destruct (String.eqb_spec (Size fi) (String c size)) as [Heq|Hneq].
    + intros [= <- <-]. exists (String c size), stat, w1, fi. repeat split; auto.
    + destruct (countVacancies url _) as [[[vc [e|]]|msg] w3]; try discriminate.
      intros [= <- <-]. do 4 eexists. split; [reflexivity|]. split; [discriminate|].
      rewrite lookup_insert_eq. split; reflexivity.
  - destruct (countVacancies url _) as [[[vc [e|]]|msg] w3]; try discriminate.
    intros [= <- <-]. do 4 eexists. split; [reflexivity|]. split; [discriminate|].
    rewrite lookup_insert_eq. split; reflexivity.
Qed.

(** No refresh of [url] touches the value of another feed. *)
Lemma updateInfoIfNeed_others url feeds w url' :
  url' <> url ->
  fst (snd (updateInfoIfNeed url (feeds, w))) !! url' = feeds !! url'.
Proof.
  intros Hne.
  destruct (updateInfoIfNeed_outcome url feeds w) as (r & f & w' & E & Hcase & _).
  rewrite E. cbn [fst snd].
  destruct Hcase as [->|(size & stat & vc & w1 & w3 & _ & _ & _ & ->)]; [reflexivity|].
  apply lookup_insert_ne. congruence.
Qed.

(** X8. A refresh whose probe returns a marker that is not the stored one
    (or when nothing is stored) and whose count succeeds returns nil, and a
    lookup of [url] in the map then gives the stat and the marker of that
    probe and that count, with a zero [FailureSince]; every other key reads
    as before. *)
Theorem updateInfoIfNeed_stores_probe_and_count url feeds w size stat w1 vc w3 :
  getFeedSize url w = (Ok (size, stat), w1) -> size <> EmptyString ->
  sameMarker feeds url size = false ->
  countVacancies url (emit (countingLine url) w1) = (Ok (vc, None), w3) ->
  exists feeds' w',
    updateInfoIfNeed url (feeds, w) = (Ok None, (feeds', w'))
    /\ feeds' !! url = Some {| Stat := stat; Size := size; VacanciesCount := vc;
                               FailureSince := 0 |}
    /\ forall url', url' <> url -> feeds' !! url' = feeds !! url'.
Proof.
  intros H Hne Hsame Hc. rewrite updateInfoIfNeed_unfold, H.
  destruct size; [contradiction|]. cbn [isEmpty]. rewrite Hsame, Hc.
  do 2 eexists. split; [reflexivity|]. split; [apply lookup_insert_eq|].
  intros url' Hu. apply lookup_insert_ne. congruence.
Qed.

Lemma updateInfoIfNeed_stores_probe_and_count_at_healthy :
  exists feeds' w',
    updateInfoIfNeed Scenario.feedA (∅, Scenario.healthy) = (Ok None, (feeds', w'))
    /\ feeds' !! Scenario.feedA
       = Some {| Stat := "mtime:1 size:100 bytes"; Size := "100"; VacanciesCount := 3;
                 FailureSince := 0 |}
    /\ forall url', url' <> Scenario.feedA -> feeds' !! url' = (∅ : gmap string FeedInfo) !! url'.
Proof.
  eapply (updateInfoIfNeed_stores_probe_and_count Scenario.feedA ∅ Scenario.healthy
            "100" "mtime:1 size:100 bytes").
  - reflexivity.
  - discriminate.
  - reflexivity.
  - reflexivity.
Defined.

(** X9. A refresh of one feed never changes what the map holds for another,
    and never removes a key, however it ends. *)
Theorem updateInfoIfNeed_other_feeds_untouched url feeds w url' :
  url' <> url ->
  fst (snd (updateInfoIfNeed url (feeds, w))) !! url' = feeds !! url'
  /\ forall k, is_Some (feeds !! k) ->
               is_Some (fst (snd (updateInfoIfNeed url (feeds, w))) !! k).
Proof.
  intros Hne. split; [exact (updateInfoIfNeed_others _ _ _ _ Hne)|].
  intros k Hk. destruct (decide (k = url)) as [->|Hk'].
  - destruct (updateInfoIfNeed_outcome url feeds w) as (r & f & w' & E & Hcase & _).
    rewrite E. cbn [fst snd].
    destruct Hcase as [->|(size & stat & vc & w1 & w3 & _ & _ & _ & ->)]; [exact Hk|].
    rewrite lookup_insert_eq. eauto.
  - rewrite (updateInfoIfNeed_others _ _ _ _ Hk'). exact Hk.
Qed.

Lemma updateInfoIfNeed_other_feeds_untouched_at_two :
  fst (snd (updateInfoIfNeed Scenario.feedA
              (info (Cases.twoFeeds Scenario.truncated 0 0), Scenario.truncated)))
    !! Cases.feedB
  = info (Cases.twoFeeds Scenario.truncated 0 0) !! Cases.feedB
  /\ forall k, is_Some (info (Cases.twoFeeds Scenario.truncated 0 0) !! k) ->
               is_Some (fst (snd (updateInfoIfNeed Scenario.feedA
                                    (info (Cases.twoFeeds Scenario.truncated 0 0),
                                     Scenario.truncated))) !! k).
Proof.
  apply (updateInfoIfNeed_other_feeds_untouched Scenario.feedA
           (info (Cases.twoFeeds Scenario.truncated 0 0)) Scenario.truncated Cases.feedB).
  discriminate.
Defined.

(** X10. Two refreshes in a row: when the first one succeeds and the probe
    of the second returns the marker that the probe of the first returned,
    the second returns nil with the map of the first and asks for the stat
    only, whether the first one counted or not. *)
Theorem updateInfoIfNeed_again_same_marker url feeds w feeds1 w1 size stat wp stat' w2 :
  updateInfoIfNeed url (feeds, w) = (Ok None, (feeds1, w1)) ->
  getFeedSize url w = (Ok (size, stat), wp) ->
  getFeedSize url w1 = (Ok (size, stat'), w2) ->
  updateInfoIfNeed url (feeds1, w1) = (Ok None, (feeds1, w2))
  /\ requestsSince w1 w2 = [url +:+ "?stat"].
Proof.
  intros H1 Hp1 Hp2.
  destruct (updateInfoIfNeed_success _ _ _ _ _ H1) as (size0 & stat0 & w0 & fi & Hp & Hne & Hfi & Hsz).
  rewrite Hp1 in Hp. injection Hp as <- <- <-.
  split; [exact (updateInfoIfNeed_unchanged _ _ _ _ _ _ _ Hp2 Hne Hfi Hsz)|].
  destruct (getFeedSize_success _ _ _ _ _ Hp2 Hne) as [-> _].
  unfold requestsSince. rewrite since_emit. reflexivity.
Qed.

Lemma updateInfoIfNeed_again_same_marker_at_healthy :
  let first := updateInfoIfNeed Scenario.feedA (∅, Scenario.healthy) in
  updateInfoIfNeed Scenario.feedA (snd first)
  = (Ok None,
     (fst (snd first), emit (EvGet (Scenario.feedA +:+ "?stat")) (snd (snd first))))
  /\ requestsSince (snd (snd first))
       (emit (EvGet (Scenario.feedA +:+ "?stat")) (snd (snd first)))
     = [Scenario.feedA +:+ "?stat"].
Proof.
  cbv zeta.
  apply (updateInfoIfNeed_again_same_marker Scenario.feedA ∅ Scenario.healthy
           (fst (snd (updateInfoIfNeed Scenario.feedA (∅, Scenario.healthy))))
           (snd (snd (updateInfoIfNeed Scenario.feedA (∅, Scenario.healthy))))
           "100" "mtime:1 size:100 bytes"
           (emit (EvGet (Scenario.feedA +:+ "?stat")) Scenario.healthy)
           "mtime:1 size:100 bytes").
  - reflexivity.
  - reflexivity.
  - reflexivity.
Defined.

(** X11. A count that fails is tried again: when the probe returned a
    marker and the refresh returned an error, the map is as it was, and the
    next refresh whose probe returns that marker asks for the archive
    again. *)
Theorem updateInfoIfNeed_failed_count_is_retried url feeds w size stat wp e feeds' w' :
  getFeedSize url w = (Ok (size, stat), wp) -> size <> EmptyString ->
  updateInfoIfNeed url (feeds, w) = (Ok (Some e), (feeds', w')) ->
  feeds' = feeds
  /\ forall w2 stat2 wp2,
       getFeedSize url w2 = (Ok (size, stat2), wp2) ->
       requestsSince w2 (snd (snd (updateInfoIfNeed url (feeds', w2))))
       = [url +:+ "?stat"; url].
Proof.
  intros Hp Hne H.
  assert (Hsame : sameMarker feeds url size = false /\ feeds' = feeds).
  { rewrite updateInfoIfNeed_unfold, Hp in H.
    destruct size; [contradiction|]. cbn [isEmpty] in H.
    destruct (sameMarker feeds url (String a size)); [discriminate|].
    destruct (countVacancies url _) as [[[vc [e'|]]|msg] w3]; try discriminate.
    injection H as _ <- _. auto. }
  destruct Hsame as [Hsame ->]. split; [reflexivity|].
  intros w2 stat2 wp2 Hp2.
  rewrite (proj2 (updateInfoIfNeed_world url feeds w2)). unfold recounts.
  rewrite Hp2. cbn [fst]. rewrite Hsame. destruct size; [contradiction|]. reflexivity.
Qed.

Lemma updateInfoIfNeed_failed_count_is_retried_at_notGzip :
  fst (snd (updateInfoIfNeed Scenario.feedA (Scenario.cachedA 0, Scenario.notGzip)))
  = Scenario.cachedA 0
  /\ forall w2 stat2 wp2,
       getFeedSize Scenario.feedA w2 = (Ok ("150", stat2), wp2) ->
       requestsSince w2
         (snd (snd (updateInfoIfNeed Scenario.feedA
                      (fst (snd (updateInfoIfNeed Scenario.feedA
                                   (Scenario.cachedA 0, Scenario.notGzip))), w2))))
       = [Scenario.feedA +:+ "?stat"; Scenario.feedA].
Proof.
  eapply (updateInfoIfNeed_failed_count_is_retried Scenario.feedA (Scenario.cachedA 0)
            Scenario.notGzip "150" "size:150 bytes").
  - reflexivity.
  - discriminate.
  - reflexivity.
Defined.

(** X12. The requests of a refresh: always the stat sidecar first; then the
    archive, once, exactly when the probe returned a marker that is not the
    stored one; nothing else, and the clock is not touched. In particular a
    refresh whose probe fails never asks for the archive. *)
Theorem updateInfoIfNeed_requests url feeds w :
  requestsSince w (snd (snd (updateInfoIfNeed url (feeds, w))))
  = (url +:+ "?stat") :: (if recounts url feeds w then [url] else [])
  /\ sameSurroundings w (snd (snd (updateInfoIfNeed url (feeds, w)))).
Proof.
  destruct (updateInfoIfNeed_world url feeds w) as [[Hs _] Hr]. split; assumption.
Qed.

(** X13. A refresh returns an error in two cases and in no other: the probe
    came back with the empty marker, or it came back with a marker that is
    not the stored one and the counter returned an error, which the error of
    the refresh then quotes. *)
Theorem updateInfoIfNeed_error_cases url feeds w e :
  fst (updateInfoIfNeed url (feeds, w)) = Ok (Some e)
  <-> (exists stat w1,
         getFeedSize url w = (Ok (EmptyString, stat), w1)
         /\ e = "Error getting feed " +:+ url +:+ " size - skip info update" +:+ LF)
      \/ (exists size stat w1 vc e' w3,
            getFeedSize url w = (Ok (size, stat), w1) /\ size <> EmptyString
            /\ sameMarker feeds url size = false
            /\ countVacancies url (emit (countingLine url) w1) = (Ok (vc, Some e'), w3)
            /\ e = "Error counting vacancies: " +:+ e').
Proof.
  rewrite updateInfoIfNeed_unfold.
  destruct (getFeedSize url w) as [[[size stat]|msg] w1].
  2:{ cbn [fst]. split; [discriminate|].
      intros [(s0 & w0 & [=] & _)|(s0 & t0 & w0 & vc & e' & w3 & [=] & _)]. }
  destruct size as [|c size]; cbn [isEmpty].
  { cbn [fst]. split.
    - intros [= <-]. left. eauto.
    - intros [(s0 & w0 & _ & ->)|(s0 & t0 & w0 & vc & e' & w3 & [= <- _ _] & Hne & _)];
        [reflexivity | contradiction]. }
  destruct (sameMarker feeds url (String c size)) eqn:Hsame.
  { cbn [fst]. split; [discriminate|].
    intros [(s0 & w0 & [=] & _)|(s0 & t0 & w0 & vc & e' & w3 & [= <- _ _] & _ & Hs & _)].
    congruence. }
  destruct (countVacancies url (emit (countingLine url) w1)) as [[[vc [e'|]]|msg] w3] eqn:Hc;
    cbn [fst].
  - split.
    + intros [= <-]. right. exists (String c size), stat, w1, vc, e', w3.
      repeat split; auto.
    + intros [(s0 & w0 & [=] & _)|(s0 & t0 & w0 & vc0 & e0 & w30 & [= <- <- <-] & _ & _ & Hc' & ->)].
      rewrite Hc in Hc'. injection Hc' as _ <- _. reflexivity.
  - split; [discriminate|].
    intros [(s0 & w0 & [=] & _)|(s0 & t0 & w0 & vc0 & e0 & w30 & [= <- <- <-] & _ & _ & Hc' & _)].
    rewrite Hc in Hc'. discriminate.
  - split; [discriminate|].
    intros [(s0 & w0 & [=] & _)|(s0 & t0 & w0 & vc0 & e0 & w30 & [= <- <- <-] & _ & _ & Hc' & _)].
    rewrite Hc in Hc'. discriminate.
Qed.

(** ** The lookup handler, in every case *)

Lemma requestsSince_refl w : requestsSince w w = [].
Proof. unfold requestsSince, since. rewrite drop_all. reflexivity. Qed.

Lemma requestsSince_log w line : requestsSince w (emit (EvLog line) w) = [].
Proof. unfold requestsSince. rewrite since_emit. reflexivity. Qed.

(** The tail of the handler asks nothing of the network. *)
Lemma serveCached_quiet url w s :
  requestsSince (world s) (world (snd (serveCached url w s))) = []
  /\ clock (world (snd (serveCached url w s))) = clock (world s).
Proof.
  destruct (info s !! url) as [feed|] eqn:H.
  - destruct (Z.eq_dec (FailureSince feed) 0) as [Hz|Hz].
    { rewrite (serveCached_fresh _ _ _ _ H (or_introl Hz)).
      split; [apply requestsSince_refl | reflexivity]. }
    destruct (Z.le_gt_cases (clock (world s) - FailureSince feed) (6 * time.Hour)) as [Hf|Hf].
    { rewrite (serveCached_fresh _ _ _ _ H (or_intror Hf)).
      split; [apply requestsSince_refl | reflexivity]. }
    rewrite (serveCached_stale _ _ _ _ H Hz Hf).
    split; [apply requestsSince_log | reflexivity].
  - rewrite (serveCached_pending _ _ _ H). split; [apply requestsSince_refl | reflexivity].
Qed.

(** X14. A lookup without a [url] parameter, or whose first [url] value is
    empty, is answered 400 with an empty body; nothing is asked of the
    network and neither map nor the workers change. *)
Theorem feedInfoHandler_bad_request values s :
  values !! "url" = None \/ (exists rest, values !! "url" = Some (EmptyString :: rest)) ->
  exists s',
    feedInfoHandler values newResponse s
    = (Ok {| status := Some 400; body := EmptyString |}, s')
    /\ info s' = info s /\ updaters s' = updaters s /\ goroutines s' = goroutines s
    /\ requestsSince (world s) (world s') = [].
Proof.
  intros [Hv|[rest Hv]]; unfold feedInfoHandler; rewrite Hv.
  - eexists. split; [reflexivity|]. repeat split. apply requestsSince_refl.
  - eexists. split; [reflexivity|]. repeat split. apply requestsSince_log.
Qed.

Lemma feedInfoHandler_bad_request_at_empty :
  exists s',
    feedInfoHandler ∅ newResponse Scenario.warm
    = (Ok {| status := Some 400; body := EmptyString |}, s')
    /\ info s' = info Scenario.warm /\ updaters s' = updaters Scenario.warm
    /\ goroutines s' = goroutines Scenario.warm
    /\ requestsSince (world Scenario.warm) (world s') = [].
Proof.
  apply (feedInfoHandler_bad_request ∅ Scenario.warm). left. apply lookup_empty.
Defined.

(** X15. Only the first value of the [url] parameter counts: two lookups
    whose first values are the same do the same, whatever values follow. *)
Theorem feedInfoHandler_first_value_only values values' url rest rest' w s :
  values !! "url" = Some (url :: rest) -> values' !! "url" = Some (url :: rest') ->
  feedInfoHandler values w s = feedInfoHandler values' w s.
Proof. intros H H'. unfold feedInfoHandler. rewrite H, H'. reflexivity. Qed.

Lemma feedInfoHandler_first_value_only_at_two :
  feedInfoHandler {[ "url" := [Scenario.feedA; Cases.feedB] ]} newResponse Scenario.warm
  = feedInfoHandler (Scenario.query Scenario.feedA) newResponse Scenario.warm.
Proof.
  apply (feedInfoHandler_first_value_only _ _ Scenario.feedA [Cases.feedB] []).
  - apply lookup_singleton_eq.
  - apply lookup_singleton_eq.
Defined.

(** X16. A lookup of a feed that is not tracked and whose probe comes back
    with the empty marker is answered 404 with an empty body, whatever the
    registry holds; the feed is not admitted: no entry, no worker, no cached
    value, and the one request made was the probe. *)
Theorem feedInfoHandler_dead_feed_not_admitted values url rest s stat w1 :
  values !! "url" = Some (url :: rest) -> url <> EmptyString ->
  updaters s !! url = None ->
  getFeedSize url (world s) = (Ok (EmptyString, stat), w1) ->
  exists s',
    feedInfoHandler values newResponse s
    = (Ok {| status := Some 404; body := EmptyString |}, s')
    /\ info s' = info s /\ updaters s' = updaters s /\ goroutines s' = goroutines s
    /\ requestsSince (world s) (world s') = [url +:+ "?stat"].
Proof.
  intros Hv Hu Ht Hp. rewrite (feedInfoHandler_untracked _ _ _ Hv Hu _ _ Ht), Hp.
  eexists. split; [reflexivity|]. repeat split. cbn [world logged withWorld].
  destruct (getFeedSize_world url (world s)) as (Hext & logs & Hsince & _ & Hlogs).
  rewrite Hp in Hext, Hsince. cbn [snd] in Hext, Hsince.
  unfold requestsSince.
  rewrite (since_extends _ _ _ Hext (extends_emit _ _)), omap_app, since_emit, Hsince.
  cbn [omap list_omap]. rewrite (right_id_L [] (++)). f_equal.
  clear Hsince. induction Hlogs as [|e logs He _ IH]; [reflexivity|].
  destruct e; [discriminate|]. exact IH.
Qed.

Lemma feedInfoHandler_dead_feed_not_admitted_at_start :
  exists s',
    feedInfoHandler (Scenario.query Scenario.deadFeed) newResponse (init Scenario.crowd)
    = (Ok {| status := Some 404; body := EmptyString |}, s')
    /\ info s' = info (init Scenario.crowd) /\ updaters s' = updaters (init Scenario.crowd)
    /\ goroutines s' = goroutines (init Scenario.crowd)
    /\ requestsSince (world (init Scenario.crowd)) (world s')
       = [Scenario.deadFeed +:+ "?stat"].
Proof.
  eapply (feedInfoHandler_dead_feed_not_admitted (Scenario.query Scenario.deadFeed)
            Scenario.deadFeed [] (init Scenario.crowd)).
  - apply lookup_singleton_eq.
  - discriminate.
  - apply lookup_empty.
  - reflexivity.
Defined.

(** X17. A lookup of a feed that is not tracked, whose probe returns a
    marker, with room in the registry: the feed gets a worker and an entry
    stamped with the time of the lookup, the registry grows by one, [info]
    is not written, and while no value is cached the answer is 202 with an
    empty body. *)
Theorem feedInfoHandler_admits values url rest s marker stat w1 :
  values !! "url" = Some (url :: rest) -> url <> EmptyString ->
  updaters s !! url = None ->
  getFeedSize url (world s) = (Ok (marker, stat), w1) -> marker <> EmptyString ->
  (size (updaters s) < FeedsLimit)%nat ->
  exists rw s',
    feedInfoHandler values newResponse s = (Ok rw, s')
    /\ goroutines s' = url :: goroutines s
    /\ updaters s' = <[url := clock (world s)]> (updaters s)
    /\ size (updaters s') = S (size (updaters s))
    /\ info s' = info s
    /\ (info s !! url = None -> rw = {| status := Some 202; body := EmptyString |}).
Proof.
  intros Hv Hu Ht Hp Hm Hroom.
  rewrite (feedInfoHandler_untracked _ _ _ Hv Hu _ _ Ht), Hp.
  destruct marker; [contradiction|]. cbn [isEmpty].
  destruct (Nat.leb_spec FeedsLimit (size (updaters s))) as [Hfull|_]; [lia|].
  destruct (getFeedSize_world url (world s)) as ([(_ & _ & _ & Hclock) _] & _).
  rewrite Hp in Hclock. cbn [snd] in Hclock.
  destruct (serveCached_frame url newResponse (spawned url (withWorld w1 s)))
    as (rw & s' & Hrun & Hi & Hup & Hg & _).
  exists rw, s'. split; [exact Hrun|].
  cbn [spawned withWorld world info updaters goroutines] in *.
  rewrite Hclock in Hup. repeat split; auto.
  - rewrite Hup. apply map_size_insert_None. exact Ht.
  - intros Hnone. rewrite (serveCached_pending url newResponse _) in Hrun by exact Hnone.
    injection Hrun as <- _. reflexivity.
Qed.

Lemma feedInfoHandler_admits_at_start :
  exists rw s',
    feedInfoHandler (Scenario.query Scenario.feedA) newResponse (init Scenario.healthy)
    = (Ok rw, s')
    /\ goroutines s' = [Scenario.feedA]
    /\ updaters s' = <[Scenario.feedA := Scenario.startOfDay]> ∅
    /\ size (updaters s') = 1%nat
    /\ info s' = ∅
    /\ ((∅ : gmap string FeedInfo) !! Scenario.feedA = None ->
        rw = {| status := Some 202; body := EmptyString |}).
Proof.
  eapply (feedInfoHandler_admits (Scenario.query Scenario.feedA) Scenario.feedA []
            (init Scenario.healthy) "100").
  - apply lookup_singleton_eq.
  - discriminate.
  - apply lookup_empty.
  - reflexivity.
  - discriminate.
  - vm_compute. lia.
Defined.

(** X18. A lookup of a tracked feed is served from the cache alone: nothing
    is asked of the network (so a feed that has gone dead, or a full
    registry, does not change the answer), the entry of the feed is stamped
    with the time of the lookup, and the answer is 202 with an empty body
    while nothing is cached and 200 with the stat and the count of a cached
    value that is not failing for more than six hours. *)
Theorem feedInfoHandler_tracked_served_from_cache values url rest s t :
  values !! "url" = Some (url :: rest) -> url <> EmptyString ->
  updaters s !! url = Some t ->
  exists rw s',
    feedInfoHandler values newResponse s = (Ok rw, s')
    /\ requestsSince (world s) (world s') = []
    /\ updaters s' = <[url := clock (world s)]> (updaters s)
    /\ size (updaters s') = size (updaters s)
    /\ info s' = info s /\ goroutines s' = goroutines s
    /\ (info s !! url = None -> rw = {| status := Some 202; body := EmptyString |})
    /\ (forall feed,
          info s !! url = Some feed ->
          FailureSince feed = 0 \/ clock (world s) - FailureSince feed <= 6 * time.Hour ->
          rw = {| status := Some 200;
                  body := Stat feed +:+ ", vacanciesCount: " +:+ pretty (VacanciesCount feed) |}).
Proof.
  intros Hv Hu Ht. rewrite (feedInfoHandler_tracked _ _ _ Hv Hu _ _ _ Ht).
  destruct (serveCached_frame url newResponse s) as (rw & s' & Hrun & Hi & Hup & Hg & _).
  pose proof (serveCached_quiet url newResponse s) as [Hq _]. rewrite Hrun in Hq.
  exists rw, s'. split; [exact Hrun|]. repeat split; auto.
  - rewrite Hup. apply map_size_insert_Some. rewrite Ht. eauto.
  - intros Hnone. rewrite (serveCached_pending _ _ _ Hnone) in Hrun.
    injection Hrun as <- _. reflexivity.
  - intros feed Hf Hfresh. rewrite (serveCached_fresh _ _ _ _ Hf Hfresh) in Hrun.
    injection Hrun as <- _. reflexivity.
Qed.

Lemma feedInfoHandler_tracked_served_from_cache_at_offline :
  exists rw s',
    feedInfoHandler (Scenario.query Scenario.feedA) newResponse
      (Scenario.tracking Scenario.offline 0 (Scenario.startOfDay - time.Hour))
    = (Ok rw, s')
    /\ requestsSince Scenario.offline (world s') = []
    /\ updaters s' = <[Scenario.feedA := Scenario.startOfDay]>
                       {[ Scenario.feedA := Scenario.startOfDay - time.Hour ]}
    /\ size (updaters s') = 1%nat
    /\ info s' = Scenario.cachedA 0 /\ goroutines s' = [Scenario.feedA]
    /\ (Scenario.cachedA 0 !! Scenario.feedA = None ->
        rw = {| status := Some 202; body := EmptyString |})
    /\ (forall feed,
          Scenario.cachedA 0 !! Scenario.feedA = Some feed ->
          FailureSince feed = 0 \/ Scenario.startOfDay - FailureSince feed <= 6 * time.Hour ->
          rw = {| status := Some 200;
                  body := Stat feed +:+ ", vacanciesCount: " +:+ pretty (VacanciesCount feed) |}).
Proof.
  apply (feedInfoHandler_tracked_served_from_cache (Scenario.query Scenario.feedA)
           Scenario.feedA []
           (Scenario.tracking Scenario.offline 0 (Scenario.startOfDay - time.Hour))
           (Scenario.startOfDay - time.Hour)).
  - apply lookup_singleton_eq.
  - discriminate.
  - apply lookup_singleton_eq.
Defined.

(** X19. Every answer of the handler has one of six statuses: 400, 404 and
    202 with an empty body, 402 with the listing, 200 with the payload of a
    cached value and 417 with the fixed message and then such a payload.
    Nothing that the network sent (an error text, a status line) gets into
    an answer but the stat and the count of a cached value. *)
Theorem feedInfoHandler_statuses values s rw s' :
  feedInfoHandler values newResponse s = (Ok rw, s') ->
  (status rw = Some 400 /\ body rw = EmptyString)
  \/ (status rw = Some 404 /\ body rw = EmptyString)
  \/ (status rw = Some 402
      /\ exists order,
           order ≡ₚ map fst (map_to_list (updaters s))
           /\ body rw = "Feeds limit (32) is exhausted:" +:+ LF +:+ linesOf order)
  \/ (status rw = Some 202 /\ body rw = EmptyString)
  \/ (status rw = Some 200
      /\ exists url feed,
           info s !! url = Some feed
           /\ body rw = Stat feed +:+ ", vacanciesCount: " +:+ pretty (VacanciesCount feed))
  \/ (status rw = Some 417
      /\ exists url feed,
           info s !! url = Some feed
           /\ body rw = "information could not be obtained for more than 6 hours"
                        +:+ Stat feed +:+ ", vacanciesCount: " +:+ pretty (VacanciesCount feed)).
Proof.
  assert (Hserve : forall url s0,
             info s0 = info s ->
             serveCached url newResponse s0 = (Ok rw, s') ->
             (status rw = Some 202 /\ body rw = EmptyString)
             \/ (status rw = Some 200
                 /\ exists url feed, info s !! url = Some feed /\ body rw = payload feed)
             \/ (status rw = Some 417
                 /\ exists url feed,
                      info s !! url = Some feed /\ body rw = staleMessage +:+ payload feed)).
  { intros url s0 Hs0 Hrun. destruct (info s0 !! url) as [feed|] eqn:H.
    - assert (H' : info s !! url = Some feed) by (rewrite <- Hs0; exact H).
      destruct (Z.eq_dec (FailureSince feed) 0) as [Hz|Hz].
      { rewrite (serveCached_fresh _ _ _ _ H (or_introl Hz)) in Hrun.
        injection Hrun as <- _. right. left. split; [reflexivity|]. exists url, feed. auto. }
      destruct (Z.le_gt_cases (clock (world s0) - FailureSince feed) (6 * time.Hour)) as [Hf|Hf].
      { rewrite (serveCached_fresh _ _ _ _ H (or_intror Hf)) in Hrun.
        injection Hrun as <- _. right. left. split; [reflexivity|]. exists url, feed. auto. }
      rewrite (serveCached_stale _ _ _ _ H Hz Hf) in Hrun.
      injection Hrun as <- _. right. right. split; [reflexivity|]. exists url, feed. auto.
    - rewrite (serveCached_pending _ _ _ H) in Hrun. injection Hrun as <- _. left. auto. }
  intros H.
  destruct (values !! "url") as [[|url rest]|] eqn:Hv.
  - unfold feedInfoHandler in H. rewrite Hv in H. discriminate.
  - destruct (string_dec url EmptyString) as [->|Hu].
    { unfold feedInfoHandler in H. rewrite Hv in H. injection H as <- _. left. auto. }
    destruct (updaters s !! url) as [t|] eqn:Ht.
    + rewrite (feedInfoHandler_tracked _ _ _ Hv Hu _ _ _ Ht) in H.
      right. right. right. exact (Hserve _ _ eq_refl H).
    + rewrite (feedInfoHandler_untracked _ _ _ Hv Hu _ _ Ht) in H.
      destruct (getFeedSize url (world s)) as [[[marker stat]|msg] w1]; [|discriminate].
      destruct (isEmpty marker).
      { injection H as <- _. right. left. auto. }
      destruct (Nat.leb FeedsLimit (size (updaters s))).
      { injection H as <- _. right. right. left. rewrite pretty_FeedsLimit.
        unfold Write, WriteHeader, newResponse. cbn [status body]. rewrite writeLines_sent.
        split; [reflexivity|]. eexists. split; [apply rangeOrder_Permutation | reflexivity]. }
      right. right. right. exact (Hserve url (spawned url (withWorld w1 s)) eq_refl H).
  - unfold feedInfoHandler in H. rewrite Hv in H. injection H as <- _. left. auto.
Qed.

Lemma feedInfoHandler_statuses_at_warm :
  status {| status := Some 200; body := "mtime:1 size:100 bytes, vacanciesCount: 3" |}
  = Some 200
  /\ exists url feed,
       info Scenario.warm !! url = Some feed
       /\ "mtime:1 size:100 bytes, vacanciesCount: 3"
          = Stat feed +:+ ", vacanciesCount: " +:+ pretty (VacanciesCount feed).
Proof.
  destruct (feedInfoHandler_statuses (Scenario.query Scenario.feedA) Scenario.warm
              {| status := Some 200; body := "mtime:1 size:100 bytes, vacanciesCount: 3" |}
              (snd (feedInfoHandler (Scenario.query Scenario.feedA) newResponse Scenario.warm)))
    as [[H _]|[[H _]|[[H _]|[[H _]|[H|[H _]]]]]]; try discriminate H.
  - vm_compute. reflexivity.
  - exact H.
Defined.


(** ** The worker, in every case *)

Lemma updateInfoIfNeed_clock url feeds w r feeds' w' :
  updateInfoIfNeed url (feeds, w) = (r, (feeds', w')) -> clock w' = clock w.
Proof.
  intros H. destruct (updateInfoIfNeed_world url feeds w) as [[(_ & _ & _ & Hc) _] _].
  rewrite H in Hc. exact Hc.
Qed.

(** A pass for a feed that was asked for within the last six hours does not
    return and leaves the registry alone. *)
Lemma workerBody_recent url s t :
  updaters s !! url = Some t -> clock (world s) - t <= 6 * time.Hour ->
  fst (workerBody url s) <> Ok Return
  /\ updaters (snd (workerBody url s)) = updaters s.
Proof.
  intros Ht Hrecent. rewrite workerBody_unfold.
  destruct (updateInfoIfNeed url (info s, world s)) as [[[e|]|msg] [feeds' w']] eqn:E;
    cbn [fst snd]; [split; [discriminate | reflexivity]| |split; [discriminate | reflexivity]].
  rewrite Ht. change (default 0 (Some t)) with t.
  rewrite (updateInfoIfNeed_clock _ _ _ _ _ _ E).
  apply six_hours_not_passed in Hrecent. rewrite Hrecent.
  split; [discriminate | reflexivity].
Qed.

(** X21. A lookup keeps a tracked feed for six hours: after the lookup, a
    pass of the worker that comes no more than six hours later does not
    return, and the feed is still in the registry after it, whatever
    happens to the refresh of that pass. *)
Theorem lookup_keeps_feed_for_six_hours values url rest s t d :
  values !! "url" = Some (url :: rest) -> url <> EmptyString ->
  updaters s !! url = Some t -> Z.of_N d <= 6 * time.Hour ->
  let looked := snd (feedInfoHandler values newResponse s) in
  fst (workerBody url (advance d looked)) <> Ok Return
  /\ is_Some (updaters (snd (workerBody url (advance d looked))) !! url).
Proof.
  intros Hv Hu Ht Hd looked. subst looked.
  rewrite (feedInfoHandler_tracked _ _ _ Hv Hu _ _ _ Ht).
  destruct (serveCached_frame url newResponse s) as (rw & s' & Hrun & _ & Hup & _).
  pose proof (serveCached_quiet url newResponse s) as [_ Hclock].
  rewrite Hrun in *. cbn [snd] in *.
  assert (Hstamp : updaters (advance d s') !! url = Some (clock (world s))).
  { cbn [advance updaters]. rewrite Hup. apply lookup_insert_eq. }
  destruct (workerBody_recent url (advance d s') (clock (world s)) Hstamp) as [Hno Hsame].
  { cbn [advance world clock]. rewrite Hclock. lia. }
  split; [exact Hno|]. rewrite Hsame, Hstamp. eauto.
Qed.

Lemma lookup_keeps_feed_for_six_hours_at_tracking :
  let looked :=
    snd (feedInfoHandler (Scenario.query Scenario.feedA) newResponse
           (Scenario.tracking Scenario.offline 0 (Scenario.startOfDay - 7 * time.Hour))) in
  fst (workerBody Scenario.feedA (advance 21600000000000 looked)) <> Ok Return
  /\ is_Some (updaters (snd (workerBody Scenario.feedA (advance 21600000000000 looked)))
                !! Scenario.feedA).
Proof.
  apply (lookup_keeps_feed_for_six_hours (Scenario.query Scenario.feedA) Scenario.feedA []
           (Scenario.tracking Scenario.offline 0 (Scenario.startOfDay - 7 * time.Hour))
           (Scenario.startOfDay - 7 * time.Hour)).
  - apply lookup_singleton_eq.
  - discriminate.
  - apply lookup_singleton_eq.
  - vm_compute. discriminate.
Defined.

(** X22. A pass of the worker of one feed leaves the cached value and the
    registry entry of every other feed as they were, and starts no worker,
    however it ends. *)
Theorem workerBody_own_key_only url s url' :
  url' <> url ->
  info (snd (workerBody url s)) !! url' = info s !! url'
  /\ updaters (snd (workerBody url s)) !! url' = updaters s !! url'
  /\ goroutines (snd (workerBody url s)) = goroutines s.
Proof.
  intros Hne. rewrite workerBody_unfold.
  pose proof (updateInfoIfNeed_others url (info s) (world s) url' Hne) as Hothers.
  destruct (updateInfoIfNeed url (info s, world s)) as [[[e|]|msg] [feeds' w']];
    cbn [fst snd] in *; [auto| |auto].
  destruct (6 * time.Hour <? time.Sub (clock w') (default 0 (updaters s !! url)));
    cbn [snd info updaters goroutines evicted logged refreshed]; [|auto].
  rewrite !lookup_delete_ne by congruence. auto.
Qed.

Lemma workerBody_own_key_only_at_two :
  info (snd (workerBody Scenario.feedA
               (Cases.twoFeeds Scenario.healthy 0 0))) !! Cases.feedB
  = info (Cases.twoFeeds Scenario.healthy 0 0) !! Cases.feedB
  /\ updaters (snd (workerBody Scenario.feedA
                      (Cases.twoFeeds Scenario.healthy 0 0))) !! Cases.feedB
     = updaters (Cases.twoFeeds Scenario.healthy 0 0) !! Cases.feedB
  /\ goroutines (snd (workerBody Scenario.feedA (Cases.twoFeeds Scenario.healthy 0 0)))
     = goroutines (Cases.twoFeeds Scenario.healthy 0 0).
Proof.
  apply (workerBody_own_key_only Scenario.feedA (Cases.twoFeeds Scenario.healthy 0 0)
           Cases.feedB).
  discriminate.
Defined.

(** X23. A pass for a feed that has no entry in the registry reads the zero
    time for it: once the refresh succeeds the feed counts as idle (the
    clock stands more than six hours after the zero instant), so the value
    just cached is deleted again and the worker returns. *)
Theorem workerBody_without_entry_returns url s feeds' w' :
  updaters s !! url = None -> 6 * time.Hour < clock (world s) ->
  updateInfoIfNeed url (info s, world s) = (Ok None, (feeds', w')) ->
  exists s',
    workerBody url s = (Ok Return, s')
    /\ info s' !! url = None /\ updaters s' = updaters s.
Proof.
  intros Ht Hclock H. rewrite workerBody_unfold, H, Ht. change (default 0 None) with 0.
  rewrite (updateInfoIfNeed_clock _ _ _ _ _ _ H).
  assert (Hidle : (6 * time.Hour <? time.Sub (clock (world s)) 0) = true)
    by (apply six_hours_passed; lia).
  rewrite Hidle. eexists. split; [reflexivity|].
  cbn [info updaters evicted logged refreshed].
  split; [apply lookup_delete_eq | apply delete_id; exact Ht].
Qed.

Lemma workerBody_without_entry_returns_at_orphan :
  exists s',
    workerBody Scenario.feedA (Cases.orphan Scenario.healthy) = (Ok Return, s')
    /\ info s' !! Scenario.feedA = None /\ updaters s' = ∅.
Proof.
  eapply (workerBody_without_entry_returns Scenario.feedA (Cases.orphan Scenario.healthy)).
  - apply lookup_empty.
  - vm_compute. reflexivity.
  - reflexivity.
Defined.

(** X24. When the probe of a pass panics, the pass panics with both maps as
    they were, and the step of the worker ends the process: it is marked
    crashed, and no later lookup, pass or passing of time changes it. *)
Theorem worker_panic_ends_process url s msg :
  crashed s = false -> url ∈ goroutines s ->
  fst (getFeedSize url (world s)) = Panic msg ->
  fst (workerBody url s) = Panic msg
  /\ info (exec (Tick url) s) = info s
  /\ updaters (exec (Tick url) s) = updaters s
  /\ crashed (exec (Tick url) s) = true
  /\ forall acts, run acts (exec (Tick url) s) = exec (Tick url) s.
Proof.
  intros Hc Hg Hp.
  assert (Hbody : exists w1, workerBody url s = (Panic msg, refreshed (info s) w1 s)).
  { rewrite workerBody_unfold, updateInfoIfNeed_unfold.
    destruct (getFeedSize url (world s)) as [[[sz st]|m] w1]; [discriminate|].
    cbn [fst] in Hp. injection Hp as ->. eauto. }
  destruct Hbody as [w1 Hbody].
  assert (Hexec : exec (Tick url) s = crash (refreshed (info s) w1 s)).
  { unfold exec. rewrite Hc, bool_decide_eq_true_2 by exact Hg. rewrite Hbody. reflexivity. }
  rewrite Hbody, Hexec. repeat split.
  intros acts. induction acts as [|a acts IH]; [reflexivity|].
  cbn [run fold_left]. exact IH.
Qed.

Lemma worker_panic_ends_process_at_noPattern :
  fst (workerBody Scenario.feedA (Cases.pending Scenario.noPattern Scenario.startOfDay))
  = Panic "index out of range"
  /\ info (exec (Tick Scenario.feedA) (Cases.pending Scenario.noPattern Scenario.startOfDay))
     = ∅
  /\ updaters (exec (Tick Scenario.feedA)
                 (Cases.pending Scenario.noPattern Scenario.startOfDay))
     = {[ Scenario.feedA := Scenario.startOfDay ]}
  /\ crashed (exec (Tick Scenario.feedA)
                (Cases.pending Scenario.noPattern Scenario.startOfDay)) = true
  /\ forall acts,
       run acts (exec (Tick Scenario.feedA)
                   (Cases.pending Scenario.noPattern Scenario.startOfDay))
       = exec (Tick Scenario.feedA) (Cases.pending Scenario.noPattern Scenario.startOfDay).
Proof.
  apply (worker_panic_ends_process Scenario.feedA
           (Cases.pending Scenario.noPattern Scenario.startOfDay) "index out of range").
  - reflexivity.
  - apply list_elem_of_here.
  - reflexivity.
Defined.

(** ** The process as a whole *)










(** X26. After its worker has returned, a feed is a stranger again: the
    next lookup probes it, and when the probe returns a marker and the
    registry has room the feed is admitted anew, with a new worker, a new
    stamp and the answer 202, the cached value being gone. *)
Theorem lookup_after_eviction_admits_anew values url rest s s1 marker stat w1 :
  workerBody url s = (Ok Return, s1) ->
  values !! "url" = Some (url :: rest) -> url <> EmptyString ->
  getFeedSize url (world s1) = (Ok (marker, stat), w1) -> marker <> EmptyString ->
  (size (updaters s1) < FeedsLimit)%nat ->
  exists s2,
    feedInfoHandler values newResponse s1
    = (Ok {| status := Some 202; body := EmptyString |}, s2)
    /\ goroutines s2 = url :: goroutines s1
    /\ updaters s2 !! url = Some (clock (world s1))
    /\ info s2 !! url = None
    /\ requestsSince (world s1) (world s2) = [url +:+ "?stat"].
Proof.
  intros Hret Hv Hu Hp Hm Hroom.
  assert (Hgone : updaters s1 !! url = None /\ info s1 !! url = None).
  { rewrite workerBody_unfold in Hret.
    destruct (updateInfoIfNeed url (info s, world s)) as [[[e|]|msg] [feeds' w']];
      try discriminate.
    destruct (6 * time.Hour <? time.Sub (clock w') (default 0 (updaters s !! url)));
      [|discriminate].
    injection Hret as <-. cbn [info updaters evicted]. split; apply lookup_delete_eq. }
  destruct Hgone as [Ht Hi].
  rewrite (feedInfoHandler_untracked _ _ _ Hv Hu _ _ Ht), Hp.
  destruct (getFeedSize_success _ _ _ _ _ Hp Hm) as [Hw1 _].
  destruct marker; [contradiction|]. cbn [isEmpty].
  destruct (Nat.leb_spec FeedsLimit (size (updaters s1))) as [Hfull|_]; [lia|].
  rewrite (serveCached_pending url newResponse (spawned url (withWorld w1 s1))) by exact Hi.
  eexists. split; [reflexivity|].
  cbn [goroutines updaters info world stamped spawned withWorld]. repeat split.
  - rewrite Hw1. apply lookup_insert_eq.
  - exact Hi.
  - rewrite Hw1. unfold requestsSince. rewrite since_emit. reflexivity.
Qed.

Lemma lookup_after_eviction_admits_anew_at_idle :
  let idle := Scenario.tracking Scenario.healthy 0 (Scenario.startOfDay - 7 * time.Hour) in
  let s1 := snd (workerBody Scenario.feedA idle) in
  exists s2,
    feedInfoHandler (Scenario.query Scenario.feedA) newResponse s1
    = (Ok {| status := Some 202; body := EmptyString |}, s2)
    /\ goroutines s2 = Scenario.feedA :: goroutines s1
    /\ updaters s2 !! Scenario.feedA = Some (clock (world s1))
    /\ info s2 !! Scenario.feedA = None
    /\ requestsSince (world s1) (world s2) = [Scenario.feedA +:+ "?stat"].
Proof.
  cbv zeta.
  apply (lookup_after_eviction_admits_anew (Scenario.query Scenario.feedA) Scenario.feedA []
           (Scenario.tracking Scenario.healthy 0 (Scenario.startOfDay - 7 * time.Hour))
           (snd (workerBody Scenario.feedA
                   (Scenario.tracking Scenario.healthy 0
                      (Scenario.startOfDay - 7 * time.Hour))))
           "100" "mtime:1 size:100 bytes"
           (emit (EvGet (Scenario.feedA +:+ "?stat"))
              (world (snd (workerBody Scenario.feedA
                             (Scenario.tracking Scenario.healthy 0
                                (Scenario.startOfDay - 7 * time.Hour))))))).
  - vm_compute. reflexivity.
  - apply lookup_singleton_eq.
  - discriminate.
  - vm_compute. reflexivity.
  - discriminate.
  - vm_compute. lia.
Defined.

(** ** The first revision beside the second *)

(** The refresh of the first revision in one equation. *)
Lemma Rev1_updateInfoIfNeed_unfold url feeds w :
  Rev1.updateInfoIfNeed url (feeds, w)
  = match getFeedSize url w with
    | (Panic msg, w1) => (Panic msg, (feeds, w1))
    | (Ok (size, stat), w1) =>
        if isEmpty size then
          (Ok tt,
           (feeds,
            emit (EvLog ("Error getting feed " +:+ url +:+ " size - skip info update" +:+ LF))
              w1))
        else if sameMarker (upgrade <$> feeds) url size then
          (Ok tt, (feeds, emit (EvLog ".") w1))
        else
          match countVacancies url (emit (EvLog "counting vacancies...") w1) with
          | (Ok (vc, None), w3) =>
              (Ok tt,
               (<[url := {| Rev1.Stat := stat; Rev1.Size := size;
                            Rev1.VacanciesCount := vc |}]> feeds,
                emit (EvLog (pretty vc +:+ LF)) w3))
          | (Ok (_, Some e), w3) =>
              (Ok tt, (feeds, emit (EvLog ("Error counting vacancies: " +:+ e +:+ LF)) w3))
          | (Panic msg, w3) => (Panic msg, (feeds, w3))
          end
    end.
Proof.
  unfold Rev1.updateInfoIfNeed, bind at 1, Rev1.inWorld at 1. cbn [fst snd].
  destruct (getFeedSize url w) as [[[size stat]|msg] w1]; [|reflexivity].
  destruct size as [|c size]; cbn [isEmpty]; [reflexivity|].
  unfold bind at 1, Rev1.readFeeds. cbn [fst snd]. unfold sameMarker. rewrite lookup_fmap.
  destruct (feeds !! url) as [fi|]; cbn [fmap option_fmap option_map upgrade Size].
  - destruct (Rev1.Size fi =? String c size)%string; cbn [negb]; [reflexivity|].
    unfold bind, Rev1.inWorld, Rev1.fmt_Print, Rev1.writeFeed, log_Print. cbn [fst snd].
    destruct (countVacancies url _) as [[[vc [e|]]|msg] w3]; cbn [fst snd]; try reflexivity.
    rewrite lookup_insert_eq. reflexivity.
  - unfold bind, Rev1.inWorld, Rev1.fmt_Print, Rev1.writeFeed, log_Print. cbn [fst snd].
    destruct (countVacancies url _) as [[[vc [e|]]|msg] w3]; cbn [fst snd]; try reflexivity.
    rewrite lookup_insert_eq. reflexivity.
Qed.

(** Lines of the log do not show among the requests. *)
Lemma requestsSince_then_log w0 w line :
  extends w0 w ->
  extends w0 (emit (EvLog line) w)
  /\ requestsSince w0 (emit (EvLog line) w) = requestsSince w0 w.
Proof.
  intros Hext. pose proof (extends_emit w (EvLog line)) as He. split.
  - exact (extends_trans _ _ _ Hext He).
  - unfold requestsSince. rewrite (since_extends _ _ _ Hext He), omap_app, since_emit.
    cbn [omap list_omap]. apply (right_id_L [] (++)).
Qed.

Lemma requestsSince_then_get w0 w url :
  extends w0 w ->
  extends w0 (emit (EvGet url) w)
  /\ requestsSince w0 (emit (EvGet url) w) = (requestsSince w0 w ++ [url])%list.
Proof.
  intros Hext. pose proof (extends_emit w (EvGet url)) as He. split.
  - exact (extends_trans _ _ _ Hext He).
  - unfold requestsSince. rewrite (since_extends _ _ _ Hext He), omap_app, since_emit.
    reflexivity.
Qed.

Lemma getFeedSize_requests url w :
  extends w (snd (getFeedSize url w))
  /\ requestsSince w (snd (getFeedSize url w)) = [url +:+ "?stat"].
Proof.
  destruct (getFeedSize_world url w) as (Hext & logs & Hsince & _ & Hlogs).
  split; [exact Hext|]. unfold requestsSince. rewrite Hsince. cbn [omap list_omap].
  f_equal. clear Hsince. induction Hlogs as [|e logs He _ IH]; [reflexivity|].
  destruct e; [discriminate|]. exact IH.
Qed.

Lemma Rev1_updateInfoIfNeed_requests url feeds w :
  requestsSince w (snd (snd (Rev1.updateInfoIfNeed url (feeds, w))))
  = (url +:+ "?stat") :: (if recounts url (upgrade <$> feeds) w then [url] else []).
Proof.
  rewrite Rev1_updateInfoIfNeed_unfold. unfold recounts.
  destruct (getFeedSize_requests url w) as [Hext Hreq].
  destruct (getFeedSize url w) as [[[size stat]|msg] w1]; cbn [fst snd] in *; [|exact Hreq].
  destruct (isEmpty size); cbn [snd negb andb].
  { rewrite (proj2 (requestsSince_then_log _ _ _ Hext)). exact Hreq. }
  destruct (sameMarker (upgrade <$> feeds) url size); cbn [snd negb andb].
  { rewrite (proj2 (requestsSince_then_log _ _ _ Hext)). exact Hreq. }
  destruct (requestsSince_then_log w w1 "counting vacancies..." Hext) as [Hext2 Hreq2].
  destruct (requestsSince_then_get w _ url Hext2) as [Hext3 Hreq3].
  rewrite Hreq2, Hreq in Hreq3.
  pose proof (countVacancies_asks url (emit (EvLog "counting vacancies...") w1)) as [Hw3 _].
  destruct (countVacancies url _) as [[[vc [e|]]|msg] w3]; cbn [snd] in *; subst w3.
  - rewrite (proj2 (requestsSince_then_log _ _ _ Hext3)). exact Hreq3.
  - rewrite (proj2 (requestsSince_then_log _ _ _ Hext3)). exact Hreq3.
  - exact Hreq3.
Qed.

(** The counter gives a network that does not read the log the same
    request whatever was logged before. *)
Lemma countVacancies_blind url w line line' :
  blindToLog w ->
  fst (countVacancies url (emit (EvLog line) w))
  = fst (countVacancies url (emit (EvLog line') w)).
Proof.
  intros Hblind. unfold countVacancies, bind, http_Get. cbn [emit net trace].
  rewrite (Hblind (trace w ++ [EvLog line])%list (trace w ++ [EvLog line'])%list url).
  - destruct (net w (trace w ++ [EvLog line'])%list url) as [err|res]; [reflexivity|].
    destruct (gzip_NewReader (ResBody res)); reflexivity.
  - unfold requestsOf. rewrite !omap_app. reflexivity.
Qed.

(** X27. The two revisions of [updateInfoIfNeed] cache alike. Run on the
    same map (the values of the first revision read with a zero
    [FailureSince]) in the same world, whose network does not read the log,
    they leave the same map, make the same requests in the same order, and
    panic in the same cases: the second revision changed what is reported,
    not what is stored. *)
Theorem updateInfoIfNeed_revisions_agree url feeds w :
  blindToLog w ->
  let old := Rev1.updateInfoIfNeed url (feeds, w) in
  let new := updateInfoIfNeed url (upgrade <$> feeds, w) in
  fst (snd new) = upgrade <$> fst (snd old)
  /\ requestsSince w (snd (snd new)) = requestsSince w (snd (snd old))
  /\ ((exists msg, fst new = Panic msg) <-> (exists msg, fst old = Panic msg)).
Proof.
  intros Hblind. cbv zeta.
  split; [|split].
  2:{ rewrite (proj2 (updateInfoIfNeed_world _ _ _)), Rev1_updateInfoIfNeed_requests.
      reflexivity. }
  all: rewrite updateInfoIfNeed_unfold, Rev1_updateInfoIfNeed_unfold.
  all: destruct (getFeedSize_world url w) as ([(Hnet & _) _] & _).
  all: destruct (getFeedSize url w) as [[[size stat]|msg] w1]; cbn [snd] in Hnet;
    [|cbn [fst snd]; first [reflexivity | split; eauto]].
  all: destruct (isEmpty size);
    [cbn [fst snd]; first [reflexivity | split; intros [m Hm]; discriminate]|].
  all: destruct (sameMarker (upgrade <$> feeds) url size);
    [cbn [fst snd]; first [reflexivity | split; intros [m Hm]; discriminate]|].
  all: assert (Hb1 : blindToLog w1) by (unfold blindToLog; rewrite Hnet; exact Hblind).
  all: pose proof (countVacancies_blind url w1 ("counting vacancies for " +:+ url)
                     "counting vacancies..." Hb1) as Hfst.
  all: unfold countingLine.
  all: destruct (countVacancies url (emit (EvLog ("counting vacancies for " +:+ url)) w1))
    as [ra wa].
  all: destruct (countVacancies url (emit (EvLog "counting vacancies...") w1)) as [rb wb].
  all: cbn [fst] in Hfst; subst rb.
  all: destruct ra as [[vc [e|]]|msg]; cbn [fst snd].
  - reflexivity.
  - rewrite fmap_insert. reflexivity.
  - reflexivity.
  - split; intros [m Hm]; discriminate.
  - split; intros [m Hm]; discriminate.
  - split; eauto.
Qed.

Lemma blindToLog_worldOf table : blindToLog (Scenario.worldOf table).
Proof. intros tr tr' url _. reflexivity. Qed.

Lemma updateInfoIfNeed_revisions_agree_at_healthy :
  let old := Rev1.updateInfoIfNeed Scenario.feedA (∅, Scenario.healthy) in
  let new := updateInfoIfNeed Scenario.feedA (upgrade <$> ∅, Scenario.healthy) in
  fst (snd new) = upgrade <$> fst (snd old)
  /\ requestsSince Scenario.healthy (snd (snd new))
     = requestsSince Scenario.healthy (snd (snd old))
  /\ ((exists msg, fst new = Panic msg) <-> (exists msg, fst old = Panic msg)).
Proof.
  exact (updateInfoIfNeed_revisions_agree Scenario.feedA ∅ Scenario.healthy
           (blindToLog_worldOf _)).
Defined.

Lemma Rev1_serveCached_unfold url w s :
  Rev1.serveCached url w s
  = (Ok match Rev1.info s !! url with
        | None => WriteHeader StatusAccepted w
        | Some feed =>
            Write (Rev1.Stat feed +:+ ", vacanciesCount: "
                   +:+ pretty (Rev1.VacanciesCount feed)) w
        end,
     rev1Stamped url s).
Proof.
  unfold Rev1.serveCached, bind, Rev1.inEnv, time_Now, Rev1.setUpdater, Rev1.readInfo.
  cbn [Rev1.info Rev1.world]. destruct (Rev1.info s !! url); reflexivity.
Qed.

(** The handler of the first revision in one equation. *)
Lemma Rev1_feedInfoHandler_unfold values url rest w s :
  values !! "url" = Some (url :: rest) -> url <> EmptyString ->
  Rev1.feedInfoHandler values w s
  = match getFeedSize url (Rev1.world s) with
    | (Panic msg, w1) => (Panic msg, rev1In w1 s)
    | (Ok (marker, _), w1) =>
        if isEmpty marker then (Ok (WriteHeader StatusNotFound w), rev1In w1 s)
        else
          match Rev1.updaters s !! url with
          | Some _ => Rev1.serveCached url w (rev1In w1 s)
          | None =>
              if Nat.leb FeedsLimit (size (Rev1.updaters s)) then
                (Ok (writeLines
                       (rangeOrder (rng w1 (draws w1))
                          (map fst (map_to_list (Rev1.updaters s))))
                       (Write ("Feeds limit (" +:+ pretty FeedsLimit +:+ ") is exhausted:"
                               +:+ LF)
                          (WriteHeader StatusPaymentRequired w))),
                 rev1In (drawn w1) s)
              else Rev1.serveCached url w (rev1Spawned url (rev1In w1 s))
          end
    end.
Proof.
  intros Hv Hu. unfold Rev1.feedInfoHandler. rewrite Hv.
  unfold bind at 1. change (index (url :: rest) 0 s) with (Ok url, s). cbv beta iota.
  rewrite (nonempty_length _ Hu). unfold bind at 1, Rev1.inEnv at 1.
  destruct (getFeedSize url (Rev1.world s)) as [[[sz stat]|msg] w1]; [|reflexivity].
  destruct sz as [|a sz]; [reflexivity|]. cbn [isEmpty].
  unfold bind at 1, Rev1.readUpdaters. cbn [Rev1.updaters].
  destruct (Rev1.updaters s !! url); [reflexivity|].
  destruct (Nat.leb FeedsLimit (size (Rev1.updaters s))); reflexivity.
Qed.

(** X28. In the first revision the probe comes before everything else: a
    lookup of a feed whose probe returns the empty marker is answered 404
    with an empty body also when the feed is tracked and has a cached value,
    and it does not stamp the feed, so lookups do not keep a dead feed in
    the registry. *)
Theorem Rev1_feedInfoHandler_probes_first values url rest s stat w1 :
  values !! "url" = Some (url :: rest) -> url <> EmptyString ->
  getFeedSize url (Rev1.world s) = (Ok (EmptyString, stat), w1) ->
  exists s',
    Rev1.feedInfoHandler values newResponse s
    = (Ok {| status := Some 404; body := EmptyString |}, s')
    /\ Rev1.info s' = Rev1.info s /\ Rev1.updaters s' = Rev1.updaters s
    /\ Rev1.goroutines s' = Rev1.goroutines s.
Proof.
  intros Hv Hu Hp. rewrite (Rev1_feedInfoHandler_unfold _ _ _ _ _ Hv Hu), Hp.
  eexists. split; [reflexivity|]. auto.
Qed.

Lemma Rev1_feedInfoHandler_probes_first_at_tracking :
  exists s',
    Rev1.feedInfoHandler (Scenario.query Scenario.feedA) newResponse
      (Cases.rev1Tracking Scenario.offline Scenario.startOfDay)
    = (Ok {| status := Some 404; body := EmptyString |}, s')
    /\ Rev1.info s' = Rev1.info (Cases.rev1Tracking Scenario.offline Scenario.startOfDay)
    /\ Rev1.updaters s' = {[ Scenario.feedA := Scenario.startOfDay ]}
    /\ Rev1.goroutines s' = [Scenario.feedA].
Proof.
  eapply (Rev1_feedInfoHandler_probes_first (Scenario.query Scenario.feedA) Scenario.feedA []
            (Cases.rev1Tracking Scenario.offline Scenario.startOfDay)).
  - apply lookup_singleton_eq.
  - discriminate.
  - reflexivity.
Defined.

(** X29. In the first revision every lookup with a non-empty URL costs one
    request, the probe, and no other, whether the feed is tracked or not and
    however the lookup is answered. *)
Theorem Rev1_feedInfoHandler_asks_once values url rest s :
  values !! "url" = Some (url :: rest) -> url <> EmptyString ->
  requestsSince (Rev1.world s)
    (Rev1.world (snd (Rev1.feedInfoHandler values newResponse s)))
  = [url +:+ "?stat"].
Proof.
  intros Hv Hu. rewrite (Rev1_feedInfoHandler_unfold _ _ _ _ _ Hv Hu).
  destruct (getFeedSize_requests url (Rev1.world s)) as [_ Hreq].
  destruct (getFeedSize url (Rev1.world s)) as [[[marker stat]|msg] w1];
    cbn [snd] in Hreq; [|exact Hreq].
  destruct (isEmpty marker); [exact Hreq|].
  rewrite !Rev1_serveCached_unfold.
  destruct (Rev1.updaters s !! url); [exact Hreq|].
  destruct (Nat.leb FeedsLimit (size (Rev1.updaters s))); exact Hreq.
Qed.

Lemma Rev1_feedInfoHandler_asks_once_at_tracking :
  requestsSince Scenario.healthy
    (Rev1.world (snd (Rev1.feedInfoHandler (Scenario.query Scenario.feedA) newResponse
                        (Cases.rev1Tracking Scenario.healthy Scenario.startOfDay))))
  = [Scenario.feedA +:+ "?stat"].
Proof.
  apply (Rev1_feedInfoHandler_asks_once (Scenario.query Scenario.feedA) Scenario.feedA []
           (Cases.rev1Tracking Scenario.healthy Scenario.startOfDay)).
  - apply lookup_singleton_eq.
  - discriminate.
Defined.

(** X30. For a feed that is not tracked the second revision answers as the
    first did: from the same process (the cached values read with a zero
    [FailureSince]) the two handlers give the same status and body or the
    same panic, and leave the same registry and the same workers. *)
Theorem feedInfoHandler_revisions_agree_untracked values url rest s :
  values !! "url" = Some (url :: rest) -> url <> EmptyString ->
  Rev1.updaters s !! url = None ->
  let old := Rev1.feedInfoHandler values newResponse s in
  let new := feedInfoHandler values newResponse (upgradeSys s) in
  fst new = fst old
  /\ updaters (snd new) = Rev1.updaters (snd old)
  /\ goroutines (snd new) = Rev1.goroutines (snd old)
  /\ info (snd new) = upgrade <$> Rev1.info (snd old).
Proof.
  intros Hv Hu Ht. cbv zeta.
  rewrite (Rev1_feedInfoHandler_unfold _ _ _ _ _ Hv Hu).
  rewrite (feedInfoHandler_untracked _ _ _ Hv Hu _ (upgradeSys s) Ht).
  cbn [upgradeSys world updaters].
  destruct (getFeedSize_world url (Rev1.world s)) as ([(_ & _ & _ & Hclock) _] & _).
  destruct (getFeedSize url (Rev1.world s)) as [[[marker stat]|msg] w1];
    cbn [snd] in Hclock; [|auto].
  destruct (isEmpty marker); [cbn [fst snd]; auto|].
  rewrite Ht. destruct (Nat.leb FeedsLimit (size (Rev1.updaters s))); [cbn [fst snd]; auto|].
  rewrite Rev1_serveCached_unfold. cbn [fst snd rev1Stamped rev1Spawned rev1In
    Rev1.info Rev1.updaters Rev1.goroutines Rev1.world].
  destruct (Rev1.info s !! url) as [feed|] eqn:Hi.
  - rewrite (serveCached_fresh url newResponse _ (upgrade feed)).
    + cbn [fst snd stamped spawned withWorld upgradeSys info updaters goroutines world].
      auto.
    + cbn [spawned withWorld upgradeSys info]. rewrite lookup_fmap, Hi. reflexivity.
    + left. reflexivity.
  - rewrite (serveCached_pending url newResponse _).
    + cbn [fst snd stamped spawned withWorld upgradeSys info updaters goroutines world].
      auto.
    + cbn [spawned withWorld upgradeSys info]. rewrite lookup_fmap, Hi. reflexivity.
Qed.

Lemma feedInfoHandler_revisions_agree_untracked_at_start :
  let old := Rev1.feedInfoHandler (Scenario.query Scenario.feedA) newResponse
               (Cases.rev1Init Scenario.healthy) in
  let new := feedInfoHandler (Scenario.query Scenario.feedA) newResponse
               (upgradeSys (Cases.rev1Init Scenario.healthy)) in
  fst new = fst old
  /\ updaters (snd new) = Rev1.updaters (snd old)
  /\ goroutines (snd new) = Rev1.goroutines (snd old)
  /\ info (snd new) = upgrade <$> Rev1.info (snd old).
Proof.
  apply (feedInfoHandler_revisions_agree_untracked (Scenario.query Scenario.feedA)
           Scenario.feedA [] (Cases.rev1Init Scenario.healthy)).
  - apply lookup_singleton_eq.
  - discriminate.
  - apply lookup_empty.
Defined.
